(** * separar_certificados.py: a shallow embedding and its properties

    The script splits a PDF holding one certificate per page into one PDF
    per page, named after the recipient.  This development embeds the
    name handling of the script (sanitising, extraction, precedence,
    collision counters), its per-page loop with the state it threads
    (the output folder and the open document handles) and the command
    line driver, and settles the properties stated for them.

    Python strings are sequences of Unicode code points, so a string is a
    list of code points here; the PDF library, the regex engine, pandas
    and the file system as the script finds it are outside the script and
    make up the environment [entorno] every function takes. *)

From Stdlib Require Import NArith Strings.String Strings.Ascii Init.Decimal.
From Stdlib Require Import DecimalNat.
From stdpp Require Import base numbers list sorting gmap sets.

Local Open Scope N_scope.
Local Open Scope nat_scope.

(** ** Strings *)

(** A Python [str]: the list of its code points. *)
Abbreviation str := (list N).

(** An ASCII literal as a [str]. *)
Definition lit (s : string) : str := N_of_ascii <$> list_ascii_of_string s.

(** [Py_UNICODE_ISSPACE]: the test behind both [\s] of [re] on [str]
    patterns and [str.strip()] without argument. *)
Definition isspace (c : N) : bool :=
  ((9 <=? c) && (c <=? 13) || (28 <=? c) && (c <=? 32)
   || (c =? 133) || (c =? 160) || (c =? 5760)
   || (8192 <=? c) && (c <=? 8202)
   || (c =? 8232) || (c =? 8233) || (c =? 8239) || (c =? 8287)
   || (c =? 12288))%N.

(** The nine characters of the class removed at line 86: less-than,
    greater-than, colon, double quote, slash, backslash, bar, question mark
    and asterisk. *)
Definition reservados : str := [60; 62; 58; 34; 47; 92; 124; 63; 42]%N.

Definition reservado (c : N) : bool := bool_decide (c ∈ reservados).

(** The first [re.sub] of the function: members of the class are dropped. *)
Definition quitar_reservados (s : str) : str :=
  filter (λ c, reservado c = false) s.

(** [re.sub(r'\s+', ' ', s)]: every maximal run of white space becomes one
    space.  [dentro] tells that the previous character was white space,
    whose run has already been replaced. *)
Fixpoint sub_espacios_desde (dentro : bool) (s : str) : str :=
  match s with
  | [] => []
  | c :: s' =>
      if isspace c
      then (if dentro then sub_espacios_desde true s'
            else 32%N :: sub_espacios_desde true s')
      else c :: sub_espacios_desde false s'
  end.

Definition sub_espacios (s : str) : str := sub_espacios_desde false s.

(** [str.lstrip()], [str.rstrip()], [str.strip()] *)
Fixpoint lstrip (s : str) : str :=
  match s with
  | [] => []
  | c :: s' => if isspace c then lstrip s' else s
  end.

Definition rstrip (s : str) : str := reverse (lstrip (reverse s)).

Definition strip (s : str) : str := rstrip (lstrip s).

(** [s.split('\n')[0]]: what precedes the first line feed. *)
Fixpoint primera_linea (s : str) : str :=
  match s with
  | [] => []
  | c :: s' => if (c =? 10)%N then [] else c :: primera_linea s'
  end.

(** ** limpiar_nombre_archivo (lines 80-97) *)

Definition sin_nombre : str := lit "certificado_sin_nombre".

(** Lines 86-90: the name before the length cap and the default. *)
Definition nombre_depurado (nombre : str) : str :=
  strip (sub_espacios (quitar_reservados nombre)).

Definition limpiar_nombre_archivo (nombre : str) : str :=
  let nombre_limpio := quitar_reservados nombre in
  let nombre_limpio := sub_espacios nombre_limpio in
  let nombre_limpio := strip nombre_limpio in
  let nombre_limpio :=
    if 100 <? length nombre_limpio then take 100 nombre_limpio
    else nombre_limpio in
  match nombre_limpio with
  | [] => sin_nombre
  | _ => nombre_limpio
  end.

(** The properties the sanitised name is meant to have. *)
Definition sin_reservados (s : str) : Prop := Forall (λ c, reservado c = false) s.

(** Two neighbours both satisfying [p]. *)
Fixpoint vecinos (p : N → bool) (s : str) : bool :=
  match s with
  | c1 :: s' =>
      match s' with
      | c2 :: _ => p c1 && p c2 || vecinos p s'
      | [] => false
      end
  | [] => false
  end.


Definition empieza_en_blanco (s : str) : bool :=
  match s with c :: _ => isspace c | [] => false end.

Definition acaba_en_blanco (s : str) : bool := empieza_en_blanco (reverse s).

(** ** Formatting numbers *)

Fixpoint digitos (u : Decimal.uint) : str :=
  match u with
  | Nil => []
  | D0 u => 48%N :: digitos u
  | D1 u => 49%N :: digitos u
  | D2 u => 50%N :: digitos u
  | D3 u => 51%N :: digitos u
  | D4 u => 52%N :: digitos u
  | D5 u => 53%N :: digitos u
  | D6 u => 54%N :: digitos u
  | D7 u => 55%N :: digitos u
  | D8 u => 56%N :: digitos u
  | D9 u => 57%N :: digitos u
  end.

(** [f"{n}"] for a non-negative [int]. *)
Definition str_de_nat (n : nat) : str := digitos (Nat.to_uint n).

(** [f"{n:03d}"]: at least three digits, padded with zeros on the left. *)
Definition str_de_nat_03 (n : nat) : str :=
  let d := str_de_nat n in replicate (3 - length d) 48%N ++ d.

(** ** What lies outside the script *)

(** [match.group(1)] after a successful [re.search]: the pattern may have no
    group 1 at all ([IndexError]), group 1 may not have taken part in the
    match ([None]), or it holds the captured text. *)
Inductive grupo :=
  | SinGrupo
  | GrupoNulo
  | Grupo (capturado : str).

(** [re.search(patron, texto, re.IGNORECASE | re.DOTALL)]. *)
Inductive re_resultado :=
  | ReError
  | SinMatch
  | Match (g1 : grupo).

Inductive excepcion :=
  | FileNotFoundError (ruta : str)
  | ValueError (extension : str)
  | IndexError
  | AttributeError
  | OSError (mensaje : str)
  | ErrorExterno (mensaje : str).

Inductive res (A : Type) :=
  | Ok (a : A)
  | Raise (e : excepcion).
Arguments Ok {A} a.
Arguments Raise {A} e.

(** A file handed to [fitz.open]: the text of each page, as
    [pagina.get_text()] gives it, or a file [fitz] refuses. *)
Inductive archivo_pdf :=
  | PdfIlegible (mensaje : str)
  | Pdf (paginas : list str).

(** Lines 278-288 for one page and one file name: where the first
    exception is raised, if any.  [RutaRechazada]: the operating system
    refuses the path (a name too long, say), so that [ruta_salida.exists()]
    of line 278 raises [OSError] outside the [try].  The three failures of
    the [try] carry [str(e)]; a [save] that fails may leave a file under
    the name all the same, which [queda] tells. *)
Inductive escritura :=
  | Escrito
  | RutaRechazada (mensaje : str)
  | FallaAbrir (mensaje : str)
  | FallaInsertar (mensaje : str)
  | FallaGuardar (mensaje : str) (queda : bool).

Record entorno := {
  (** the regex engine *)
  re_search : str → str → re_resultado;
  (** the lines of patrones.txt that could be read, [None] without file *)
  patrones_txt : option (list str);
  (** the PDF at a path, [None] when [os.path.exists] is false *)
  leer_pdf : str → option archivo_pdf;
  (** [Path(ruta).name] *)
  path_name : str → str;
  (** [str(Path(__file__).parent / CARPETA_SALIDA)] and the same for
      CARPETA_ENTRADA: the two folders next to the script *)
  carpeta_salida_defecto : str;
  carpeta_entrada : str;
  (** [str(Path(carpeta_salida) / nombre_archivo)] *)
  ruta_en : str → str → str;
  (** writing page [i] of the PDF at [ruta] under a file name *)
  escribir : str → nat → str → escritura;
  (** [unlink] succeeds on this file of salida/, of entrada/ *)
  unlink_salida : str → bool;
  unlink_entrada : str → bool;
  (** [None] when entrada/ is missing, else [glob("*.pdf")] on it *)
  entrada : option (list str);
  (** [os.path.exists] on the path of the list of names *)
  existe_ruta : str → bool;
  (** [Path(ruta).suffix.lower()] *)
  suffix_lower : str → str;
  (** [df.iloc[:, 0].astype(str).tolist()] of the table pandas reads *)
  read_excel : str → res (list str);
  read_csv : str → res (list str);
}.

(** ** The state the script changes *)

Inductive handle :=
  | HEntrada (ruta : str)
  | HSalida (ruta : str) (i : nat).

Global Instance handle_eq_dec : EqDecision handle.
Proof. solve_decision. Defined.

(** [salida]: the files reached from the output folder of the run (salida/,
    or the folder of the option --salida for a single file), each under the
    name that lines 274 and 280 join to the folder; paths are POSIX paths,
    and two names are one file only when they are equal.  [abiertos]: the
    documents opened and not closed, latest first; [borrados]: the input
    files deleted; [carpetas]: the folders [mkdir] was called on, which
    exist from then on.  [mkdir(parents=True, exist_ok=True)] is taken to
    succeed, and what the script prints is left out. *)
Record estado := {
  salida : gset str;
  abiertos : list handle;
  borrados : list str;
  carpetas : gset str;
}.

Definition con_salida (fs : gset str) (st : estado) : estado :=
  {| salida := fs; abiertos := abiertos st; borrados := borrados st;
     carpetas := carpetas st |}.

Definition con_abiertos (hs : list handle) (st : estado) : estado :=
  {| salida := salida st; abiertos := hs; borrados := borrados st;
     carpetas := carpetas st |}.

Definition con_carpetas (cs : gset str) (st : estado) : estado :=
  {| salida := salida st; abiertos := abiertos st; borrados := borrados st;
     carpetas := cs |}.

Definition M (A : Type) : Type := estado → res A * estado.

Global Instance M_ret : MRet M := λ A a st, (Ok a, st).
Global Instance M_bind : MBind M := λ A B f m st,
  match m st with
  | (Ok a, st') => f a st'
  | (Raise e, st') => (Raise e, st')
  end.

Definition raise {A} (e : excepcion) : M A := λ st, (Raise e, st).

(** [try: m except Exception as e: h e] *)
Definition try_except {A} (m : M A) (h : excepcion → M A) : M A := λ st,
  match m st with
  | (Ok a, st') => (Ok a, st')
  | (Raise e, st') => h e st'
  end.

Definition leer_salida : M (gset str) := λ st, (Ok (salida st), st).

Definition crear_archivo (nombre : str) : M unit := λ st,
  (Ok (), con_salida ({[nombre]} ∪ salida st) st).

(** [Path(carpeta).mkdir(parents=True, exist_ok=True)], taken to succeed:
    from then on the folder exists. *)
Definition mkdir (carpeta : str) : M unit := λ st,
  (Ok (), con_carpetas ({[carpeta]} ∪ carpetas st) st).

Definition abrir (h : handle) : M unit := λ st,
  (Ok (), con_abiertos (h :: abiertos st) st).

Definition cerrar (h : handle) : M unit := λ st,
  (Ok (), con_abiertos (filter (λ h', h' ≠ h) (abiertos st)) st).

Definition elevar {A} (r : res A) : M A := λ st, (r, st).

(** ** cargar_patrones (lines 100-131) *)

Definition patrones_por_defecto : list str :=
  [ lit "Se otorga el presente reconocimiento a:\s*\n?\s*(.+?)(?:\n|Por su)";
    lit "[Oo]torga(?:do)? a:\s*(.+?)(?:\n|$)";
    lit "[Cc]ertifica(?:do)? a:\s*(.+?)(?:\n|$)" ].

(** [linea and not linea.startswith('#')] *)
Definition es_patron (linea : str) : bool :=
  match linea with
  | [] => false
  | c :: _ => negb (c =? 35)%N
  end.

Definition cargar_patrones (E : entorno) : list str :=
  match patrones_txt E with
  | None => patrones_por_defecto
  | Some lineas => filter (λ linea, es_patron linea = true) (strip <$> lineas)
  end.

(** ** extraer_nombre_de_pagina (lines 134-164) *)

(** Lines 154-158, applied to the text of group 1. *)
Definition nombre_de_grupo (g : str) : str :=
  let nombre := strip g in
  let nombre := sub_espacios nombre in
  strip (primera_linea nombre).

(** The loop of lines 150-164 over the patterns.  [re.error] is caught and
    the pattern skipped; the [IndexError] of [match.group(1)] and the
    [AttributeError] of [None.strip()] are not. *)
Fixpoint probar_patrones (E : entorno) (texto : str) (patrones : list str)
  : res (option str) :=
  match patrones with
  | [] => Ok None
  | patron_regex :: resto =>
      match re_search E patron_regex texto with
      | ReError => probar_patrones E texto resto
      | SinMatch => probar_patrones E texto resto
      | Match SinGrupo => Raise IndexError
      | Match GrupoNulo => Raise AttributeError
      | Match (Grupo g) =>
          let nombre := nombre_de_grupo g in
          if negb (bool_decide (nombre = [])) && (2 <? length nombre)
          then Ok (Some nombre)
          else probar_patrones E texto resto
      end
  end.

(** [if patrones is None: patrones = cargar_patrones()] *)
Definition patrones_efectivos (E : entorno) (patrones : option (list str))
  : list str :=
  match patrones with
  | None => cargar_patrones E
  | Some p => p
  end.

(** A page is given by its text. *)
Definition extraer_nombre_de_pagina (E : entorno) (pagina : str)
    (patrones : option (list str)) : res (option str) :=
  let texto := pagina in
  let patrones := patrones_efectivos E patrones in
  probar_patrones E texto patrones.

(** ** cargar_lista_nombres (lines 167-198) *)

(** [n.lower() != 'nan'] fails for the eight spellings of nan in ASCII
    letters of either case; no other character lowers to a or n. *)
Definition es_nan (n : str) : bool :=
  match n with
  | [c1; c2; c3] =>
      ((c1 =? 110) || (c1 =? 78))%N && ((c2 =? 97) || (c2 =? 65))%N
      && ((c3 =? 110) || (c3 =? 78))%N
  | _ => false
  end.

(** [n and n.lower() != 'nan' and n.strip()] *)
Definition es_nombre (n : str) : bool :=
  negb (bool_decide (n = [])) && negb (es_nan n)
  && negb (bool_decide (strip n = [])).

(** The body of the [try] of lines 182-194. *)
Definition cargar_lista_nombres_cuerpo (E : entorno) (ruta_archivo : str)
  : res (list str) :=
  let extension := suffix_lower E ruta_archivo in
  let df :=
    if bool_decide (extension ∈ [lit ".xlsx"; lit ".xls"])
    then read_excel E ruta_archivo
    else if bool_decide (extension = lit ".csv")
    then read_csv E ruta_archivo
    else Raise (ValueError extension) in
  match df with
  | Ok nombres => Ok (filter (λ n, es_nombre n = true) nombres)
  | Raise e => Raise e
  end.

(** Any exception of the body is reported and turned into the empty list. *)
Definition cargar_lista_nombres (E : entorno) (ruta_archivo : str) : list str :=
  match cargar_lista_nombres_cuerpo E ruta_archivo with
  | Ok nombres => nombres
  | Raise _ => []
  end.

(** ** separar_certificados (lines 201-330) *)

Inductive origen_t := DeLista | Extraido | Generado.

Global Instance origen_eq_dec : EqDecision origen_t.
Proof. solve_decision. Defined.

Record exito := {
  pagina : nat;
  nombre : str;
  archivo : str;
  origen : origen_t;
}.

Record fallo := {
  pagina_fallida : nat;
  error : str;
}.

Record resultados := {
  exitosos : list exito;
  errores : list fallo;
  total : nat;
  pdf_origen : str;
}.

(** Lines 258-269: the name of page [i] (counted from 0) and where it
    comes from. *)
Definition elegir_nombre (E : entorno) (lista_nombres : option (list str))
    (patrones : list str) (i : nat) (pagina : str) : res (str * origen_t) :=
  let numero := i + 1 in
  let elegido :=
    match lista_nombres with
    | Some ((_ :: _) as lista) =>
        if i <? length lista then Ok (lista !! i, DeLista)
        else match extraer_nombre_de_pagina E pagina (Some patrones) with
             | Ok n => Ok (n, Extraido)
             | Raise e => Raise e
             end
    | _ =>
        match extraer_nombre_de_pagina E pagina (Some patrones) with
        | Ok n => Ok (n, Extraido)
        | Raise e => Raise e
        end
    end in
  match elegido with
  | Raise e => Raise e
  | Ok (Some (c :: s), origen) => Ok (c :: s, origen)
  | Ok (_, _) =>
      (* [not nombre]: [None] or the empty string *)
      Ok (lit "certificado_" ++ str_de_nat_03 numero, Generado)
  end.

(** Lines 273 and 279. *)
Definition nombre_base (prefijo nombre_limpio sufijo : str) : str :=
  prefijo ++ nombre_limpio ++ sufijo ++ lit ".pdf".

Definition nombre_numerado (prefijo nombre_limpio sufijo : str)
    (contador : nat) : str :=
  prefijo ++ nombre_limpio ++ lit "_" ++ str_de_nat contador
    ++ sufijo ++ lit ".pdf".

(** [ruta_salida.exists()] for a file name of the output folder [fs]:
    [rechazada] gives the message of the [OSError] it raises on a path the
    operating system refuses. *)
Definition existe (rechazada : str → option str) (fs : gset str)
    (nombre_archivo : str) : res bool :=
  match rechazada nombre_archivo with
  | Some mensaje => Raise (OSError mensaje)
  | None => Ok (bool_decide (nombre_archivo ∈ fs))
  end.

(** The [while] of lines 277-281 on the pair (nombre_archivo, contador),
    run for at most [pasos] rounds. *)
Fixpoint mientras_existe (pasos : nat) (rechazada : str → option str)
    (fs : gset str) (prefijo nombre_limpio sufijo nombre_archivo : str)
    (contador : nat) : res str :=
  match existe rechazada fs nombre_archivo with
  | Raise e => Raise e
  | Ok false => Ok nombre_archivo
  | Ok true =>
      match pasos with
      | 0 => Ok nombre_archivo
      | S pasos' =>
          mientras_existe pasos' rechazada fs prefijo nombre_limpio sufijo
            (nombre_numerado prefijo nombre_limpio sufijo contador)
            (S contador)
      end
  end.

(** Lines 273-281.  A folder of [n] names stops the loop within [n + 1]
    rounds, as [contador_libre] and [nombre_libre_correcto] show. *)
Definition nombre_libre (rechazada : str → option str) (fs : gset str)
    (prefijo nombre_limpio sufijo : str) : res str :=
  mientras_existe (S (size fs)) rechazada fs prefijo nombre_limpio sufijo
    (nombre_base prefijo nombre_limpio sufijo) 1.

(** The summary before the first page (lines 246-251). *)
Definition sin_resultados (total_paginas : nat) (nombre_pdf : str)
  : resultados :=
  {| exitosos := []; errores := []; total := total_paginas;
     pdf_origen := nombre_pdf |}.

Definition anotar_exito (r : resultados) (e : exito) : resultados :=
  {| exitosos := exitosos r ++ [e]; errores := errores r;
     total := total r; pdf_origen := pdf_origen r |}.

Definition anotar_error (r : resultados) (f : fallo) : resultados :=
  {| exitosos := exitosos r; errores := errores r ++ [f];
     total := total r; pdf_origen := pdf_origen r |}.

(** Lines 283-306: the [try] that writes page [i] under [nombre_archivo]
    in the folder [carpeta_salida], and its [except].  The summary records
    [str(ruta_salida)] (line 297). *)
Definition escribir_pagina (E : entorno) (ruta_pdf carpeta_salida : str)
    (i : nat) (nombre nombre_archivo : str) (origen : origen_t)
    (r : resultados) : M resultados :=
  let numero := i + 1 in
  let ruta_salida := ruta_en E carpeta_salida nombre_archivo in
  let nuevo_pdf := HSalida ruta_pdf i in
  let fallar mensaje :=
    mret (anotar_error r {| pagina_fallida := numero; error := mensaje |}) in
  match escribir E ruta_pdf i nombre_archivo with
  | FallaAbrir mensaje => fallar mensaje
  | FallaInsertar mensaje => abrir nuevo_pdf ;; fallar mensaje
  | FallaGuardar mensaje queda =>
      abrir nuevo_pdf ;;
      (if queda then crear_archivo nombre_archivo else mret ()) ;;
      fallar mensaje
  | RutaRechazada mensaje =>
      (* [save] is refused the path as [exists()] is *)
      abrir nuevo_pdf ;; fallar mensaje
  | Escrito =>
      abrir nuevo_pdf ;;
      crear_archivo nombre_archivo ;;
      cerrar nuevo_pdf ;;
      mret (anotar_exito r {| pagina := numero; nombre := nombre;
                              archivo := ruta_salida; origen := origen |})
  end.

(** The message of the [OSError] that [exists()] raises on the path of a
    file name, for page [i]. *)
Definition rechazo (E : entorno) (ruta_pdf : str) (i : nat)
    (nombre_archivo : str) : option str :=
  match escribir E ruta_pdf i nombre_archivo with
  | RutaRechazada mensaje => Some mensaje
  | _ => None
  end.

(** Lines 255-306: the body of the loop for page [i]. *)
Definition procesar_pagina (E : entorno) (ruta_pdf carpeta_salida : str)
    (lista_nombres : option (list str)) (patrones : list str)
    (prefijo sufijo : str) (i : nat) (pagina : str) (r : resultados)
  : M resultados :=
  '(nombre, origen) ← elevar (elegir_nombre E lista_nombres patrones i pagina);
  let nombre_limpio := limpiar_nombre_archivo nombre in
  fs ← leer_salida;
  nombre_archivo ← elevar (nombre_libre (rechazo E ruta_pdf i) fs prefijo
                             nombre_limpio sufijo);
  escribir_pagina E ruta_pdf carpeta_salida i nombre nombre_archivo origen r.

(** Lines 254-306: the pages from index [i] on. *)
Fixpoint procesar_paginas (E : entorno) (ruta_pdf carpeta_salida : str)
    (lista_nombres : option (list str)) (patrones : list str)
    (prefijo sufijo : str) (i : nat) (paginas : list str) (r : resultados)
  : M resultados :=
  match paginas with
  | [] => mret r
  | pagina :: resto =>
      r' ← procesar_pagina E ruta_pdf carpeta_salida lista_nombres patrones
             prefijo sufijo i pagina r;
      procesar_paginas E ruta_pdf carpeta_salida lista_nombres patrones
        prefijo sufijo (S i) resto r'
  end.

(** Lines 217-220: the folder the run writes to. *)
Definition carpeta_de (E : entorno) (carpeta_salida : option str) : str :=
  match carpeta_salida with
  | None => carpeta_salida_defecto E
  | Some carpeta => carpeta
  end.

Definition separar_certificados (E : entorno) (ruta_pdf : str)
    (carpeta_salida : option str) (lista_nombres : option (list str))
    (patrones : option (list str)) (prefijo sufijo : str) : M resultados :=
  match leer_pdf E ruta_pdf with
  | None => raise (FileNotFoundError ruta_pdf)
  | Some contenido =>
      let carpeta_salida := carpeta_de E carpeta_salida in
      mkdir carpeta_salida ;;
      let patrones := patrones_efectivos E patrones in
      match contenido with
      | PdfIlegible mensaje => raise (ErrorExterno mensaje)
      | Pdf documento =>
          abrir (HEntrada ruta_pdf) ;;
          let total_paginas := length documento in
          let nombre_pdf := path_name E ruta_pdf in
          let resultados := sin_resultados total_paginas nombre_pdf in
          resultados ← procesar_paginas E ruta_pdf carpeta_salida
                         lista_nombres patrones prefijo sufijo 0 documento
                         resultados;
          cerrar (HEntrada ruta_pdf) ;;
          mret resultados
      end
  end.

(** ** Housekeeping of the folders (lines 40-77) *)

(** A name that ends in .pdf. *)
Definition es_pdf (nombre : str) : bool :=
  bool_decide (lit ".pdf" `suffix_of` nombre).

(** The name of an entry of the folder itself: it holds no slash.  A name
    with a slash, which only a prefix or a suffix can bring in, is that of
    a file in another folder. *)
Definition directo (nombre : str) : bool :=
  bool_decide (47%N ∉ nombre).

(** A name [carpeta_salida.glob("*.pdf")] selects: the glob does not
    descend into the folders of the folder. *)
Definition glob_pdf (nombre : str) : bool :=
  es_pdf nombre && directo nombre.

(** Every PDF among the entries of the folder salida/ whose [unlink]
    succeeds is removed. *)
Definition limpiar_carpeta_salida (E : entorno) : M nat := λ st,
  let archivos_pdf := filter (λ n, glob_pdf n = true) (salida st) in
  let eliminados := filter (λ n, unlink_salida E n = true) archivos_pdf in
  (Ok (size eliminados),
   {| salida := salida st ∖ eliminados;
      abiertos := abiertos st; borrados := borrados st;
      carpetas := carpetas st |}).

Definition eliminar_pdf_entrada (E : entorno) (ruta_pdf : str) : M bool :=
  λ st,
  match leer_pdf E ruta_pdf with
  | Some _ =>
      if unlink_entrada E ruta_pdf
      then (Ok true, {| salida := salida st; abiertos := abiertos st;
                        borrados := borrados st ++ [ruta_pdf];
                        carpetas := carpetas st |})
      else (Ok false, st)
  | None => (Ok false, st)
  end.

(** ** procesar_carpeta_entrada (lines 333-400) *)

(** Lines 375-392: the loop over the PDFs found, with the two lists it
    fills.  Every run is given the folder salida/ next to the script. *)
Fixpoint procesar_pdfs (E : entorno) (lista_nombres : option (list str))
    (patrones : list str) (prefijo sufijo : str) (archivos_pdf : list str)
    (todos_resultados : list resultados) (pdfs_procesados : list str)
  : M (list resultados * list str) :=
  match archivos_pdf with
  | [] => mret (todos_resultados, pdfs_procesados)
  | pdf :: resto =>
      '(todos, procesados) ←
        try_except
          (resultado ← separar_certificados E pdf
                         (Some (carpeta_salida_defecto E)) lista_nombres
                         (Some patrones) prefijo sufijo;
           mret (todos_resultados ++ [resultado],
                 match errores resultado with
                 | [] => pdfs_procesados ++ [pdf]
                 | _ => pdfs_procesados
                 end))
          (λ _, mret (todos_resultados, pdfs_procesados));
      procesar_pdfs E lista_nombres patrones prefijo sufijo resto
        todos procesados
  end.

(** Lines 397-398. *)
Fixpoint eliminar_pdfs (E : entorno) (pdfs : list str) : M unit :=
  match pdfs with
  | [] => mret ()
  | pdf_path :: resto => eliminar_pdf_entrada E pdf_path ;; eliminar_pdfs E resto
  end.

Definition procesar_carpeta_entrada (E : entorno)
    (lista_nombres : option (list str)) (prefijo sufijo : str)
    (limpiar_salida eliminar_entrada : bool) : M (list resultados) :=
  match entrada E with
  | None => mkdir (carpeta_entrada E) ;; mret []
  | Some [] => mret []
  | Some archivos_pdf =>
      (if limpiar_salida then limpiar_carpeta_salida E ;; mret ()
       else mret ()) ;;
      let patrones := cargar_patrones E in
      '(todos_resultados, pdfs_procesados) ←
        procesar_pdfs E lista_nombres patrones prefijo sufijo archivos_pdf
          [] [];
      (match pdfs_procesados with
       | _ :: _ => if eliminar_entrada then eliminar_pdfs E pdfs_procesados
                   else mret ()
       | [] => mret ()
       end) ;;
      mret todos_resultados
  end.

(** ** main (lines 420-528) *)

Record argumentos := {
  arg_archivo : option str;
  arg_lista : option str;
  arg_salida : option str;
  arg_prefijo : str;
  arg_sufijo : str;
  arg_ver_patrones : bool;
  arg_no_limpiar : bool;
  arg_no_borrar_entrada : bool;
}.

(** An option of the command line that is given and not empty. *)
Definition dado (a : option str) : option str :=
  match a with
  | Some (c :: s) => Some (c :: s)
  | _ => None
  end.

(** Lines 489-499: [inl] is the exit status of [sys.exit(1)], [inr] the
    list of names the run goes on with. *)
Definition leer_lista (E : entorno) (args : argumentos)
  : nat + option (list str) :=
  match dado (arg_lista args) with
  | None => inr None
  | Some ruta =>
      if existe_ruta E ruta then inr (Some (cargar_lista_nombres E ruta))
      else inl 1
  end.

(** Lines 502-528.  [sys.exit] raises [SystemExit], which the
    [except Exception] of line 526 lets through. *)
Definition procesar (E : entorno) (args : argumentos)
    (lista_nombres : option (list str)) : M nat :=
  try_except
    (match dado (arg_archivo args) with
     | Some ruta =>
         resultado ← separar_certificados E ruta (arg_salida args)
                       lista_nombres None (arg_prefijo args)
                       (arg_sufijo args);
         match errores resultado with
         | _ :: _ => mret 1
         | [] => mret 0
         end
     | None =>
         resultados ← procesar_carpeta_entrada E lista_nombres
                        (arg_prefijo args) (arg_sufijo args)
                        (negb (arg_no_limpiar args))
                        (negb (arg_no_borrar_entrada args));
         match resultados with
         | [] => mret 1
         | _ :: _ => mret 0
         end
     end)
    (λ _, mret 1).

(** The exit status of the script. *)
Definition main (E : entorno) (args : argumentos) : M nat :=
  if arg_ver_patrones args then mret 0
  else match leer_lista E args with
       | inl estado_salida => mret estado_salida
       | inr lista_nombres => procesar E args lista_nombres
       end.

(** ** A small environment to run the script in *)

(** A regex engine for patterns that are a literal marker followed by
    [(.+?)(?:\n|$)]: the marker is looked for from left to right and group 1
    is the rest of its line.  Such a pattern is written as its marker. *)
Fixpoint tras_prefijo (p s : str) : option str :=
  match p, s with
  | [], _ => Some s
  | _ :: _, [] => None
  | a :: p', b :: s' => if (a =? b)%N then tras_prefijo p' s' else None
  end.

Fixpoint buscar_marcador (marcador texto : str) : re_resultado :=
  match tras_prefijo marcador texto with
  | Some resto => Match (Grupo (primera_linea resto))
  | None =>
      match texto with
      | [] => SinMatch
      | _ :: texto' => buscar_marcador marcador texto'
      end
  end.

(** The final suffix of the last component of a path, as it is written. *)
Fixpoint sufijo_de_ruta (s : str) : str :=
  match s with
  | [] => []
  | c :: s' =>
      match sufijo_de_ruta s' with
      | [] => if (c =? 46)%N then s else []
      | r => r
      end
  end.

Definition tres_paginas : list str :=
  [ lit "Se otorga a: Jane Doe";
    lit "Constancia de participacion";
    lit "Se certifica a: Ana Ruiz" ].

Definition dos_marcadores : list str := [ lit "otorga a: "; lit "certifica a: " ].

(** One PDF of three pages under two names, every write succeeding. *)
Definition entorno_ejemplo : entorno := {|
  re_search := buscar_marcador;
  patrones_txt := Some dos_marcadores;
  leer_pdf := λ ruta,
    if bool_decide (ruta ∈ [lit "certificados.pdf"; lit "entrada/lote.pdf"])
    then Some (Pdf tres_paginas) else None;
  path_name := λ ruta, ruta;
  carpeta_salida_defecto := lit "salida";
  carpeta_entrada := lit "entrada";
  ruta_en := λ carpeta nombre_archivo, carpeta ++ lit "/" ++ nombre_archivo;
  escribir := λ _ _ _, Escrito;
  unlink_salida := λ _, true;
  unlink_entrada := λ _, true;
  entrada := Some [lit "entrada/lote.pdf"];
  existe_ruta := λ ruta, bool_decide (ruta = lit "nombres.txt");
  suffix_lower := sufijo_de_ruta;
  read_excel := λ _, Raise (ErrorExterno (lit "no es un libro de Excel"));
  read_csv := λ _, Ok [lit "Bob Smith"];
|}.

(** The same, with a full disk: [save] fails on every page and leaves an
    empty file. *)
Definition entorno_disco_lleno : entorno := {|
  re_search := buscar_marcador;
  patrones_txt := Some dos_marcadores;
  leer_pdf := leer_pdf entorno_ejemplo;
  path_name := λ ruta, ruta;
  carpeta_salida_defecto := carpeta_salida_defecto entorno_ejemplo;
  carpeta_entrada := carpeta_entrada entorno_ejemplo;
  ruta_en := ruta_en entorno_ejemplo;
  escribir := λ _ _ _, FallaGuardar (lit "No space left on device") true;
  unlink_salida := λ _, true;
  unlink_entrada := λ _, true;
  entrada := Some [lit "entrada/lote.pdf"];
  existe_ruta := existe_ruta entorno_ejemplo;
  suffix_lower := sufijo_de_ruta;
  read_excel := read_excel entorno_ejemplo;
  read_csv := read_csv entorno_ejemplo;
|}.

Definition estado_inicial (fs : gset str) : estado :=
  {| salida := fs; abiertos := []; borrados := []; carpetas := ∅ |}.

(** ** The properties claimed, as predicates *)


(** The page numbers in the two lists of a summary. *)
Definition paginas_exitosas (r : resultados) : list nat :=
  pagina <$> exitosos r.

Definition paginas_fallidas (r : resultados) : list nat :=
  pagina_fallida <$> errores r.

(** The two lists, each in ascending order, share out the pages 1 to [n]. *)
Definition particion_hasta (n : nat) (r : resultados) : Prop :=
  StronglySorted lt (paginas_exitosas r)
  ∧ StronglySorted lt (paginas_fallidas r)
  ∧ paginas_exitosas r ++ paginas_fallidas r ≡ₚ seq 1 n.

(** The value a run returns, [d] when it raises. *)
Definition valor {A} (d : A) (x : res A * estado) : A :=
  match x.1 with
  | Ok a => a
  | Raise _ => d
  end.

(** The run of the example: the three pages, with a list of one name. *)
Definition corrida_ejemplo : res resultados * estado :=
  separar_certificados entorno_ejemplo (lit "certificados.pdf") None
    (Some [lit "Bob Smith"]) None [] [] (estado_inicial ∅).

(** Page, name and source of a success. *)
Definition resumen_exito (e : exito) : nat * str * origen_t :=
  (pagina e, nombre e, origen e).

(** An output folder purged of PDFs. *)
Definition purgada (fs : gset str) : Prop :=
  set_Forall (λ n, es_pdf n = false) fs.

(** Two folders holding the same PDFs. *)
Definition mismos_pdf (fs1 fs2 : gset str) : Prop :=
  ∀ n, es_pdf n = true → n ∈ fs1 ↔ n ∈ fs2.

(** The state after the run of the example and a purge of its folder. *)
Definition estado_purgado : estado :=
  (limpiar_carpeta_salida entorno_ejemplo corrida_ejemplo.2).2.

(** One page for John_Doe, in a folder that holds John_Doe.pdf. *)
Definition estado_john_doe : estado := estado_inicial {[lit "John_Doe.pdf"]}.

Definition corrida_john_doe : res resultados * estado :=
  procesar_pagina entorno_ejemplo (lit "certificados.pdf") (lit "salida")
    (Some [lit "John_Doe"]) dos_marcadores [] [] 0
    (lit "Se otorga a: John Doe") (sin_resultados 1 []) estado_john_doe.


(** The script called without options, on a file, with a list. *)
Definition args_carpeta : argumentos :=
  {| arg_archivo := None; arg_lista := None; arg_salida := None;
     arg_prefijo := []; arg_sufijo := []; arg_ver_patrones := false;
     arg_no_limpiar := false; arg_no_borrar_entrada := false |}.

Definition args_archivo : argumentos :=
  {| arg_archivo := Some (lit "certificados.pdf"); arg_lista := None;
     arg_salida := None;
     arg_prefijo := []; arg_sufijo := []; arg_ver_patrones := false;
     arg_no_limpiar := false; arg_no_borrar_entrada := false |}.


(** What [re.search(r"Otorga a:\s*(.+?)\s*Por su", texto, re.IGNORECASE |
    re.DOTALL)] gives on [texto_dos_lineas]: with DOTALL the lazy group
    runs over the line feed up to the closing words. *)
Definition texto_dos_lineas : str :=
  lit "Otorga a: Jane" ++ [10%N] ++ lit "Doe" ++ [10%N]
    ++ lit "Por su participacion".

Definition patron_dos_lineas : str := lit "Otorga a:\s*(.+?)\s*Por su".

Definition entorno_dos_lineas : entorno := {|
  re_search := λ patron texto,
    if bool_decide (patron = patron_dos_lineas ∧ texto = texto_dos_lineas)
    then Match (Grupo (lit "Jane" ++ [10%N] ++ lit "Doe"))
    else SinMatch;
  patrones_txt := Some [patron_dos_lineas];
  leer_pdf := λ ruta,
    if bool_decide (ruta = lit "certificados.pdf")
    then Some (Pdf [texto_dos_lineas]) else None;
  path_name := λ ruta, ruta;
  carpeta_salida_defecto := carpeta_salida_defecto entorno_ejemplo;
  carpeta_entrada := carpeta_entrada entorno_ejemplo;
  ruta_en := ruta_en entorno_ejemplo;
  escribir := λ _ _ _, Escrito;
  unlink_salida := λ _, true;
  unlink_entrada := λ _, true;
  entrada := Some [];
  existe_ruta := λ _, false;
  suffix_lower := sufijo_de_ruta;
  read_excel := read_excel entorno_ejemplo;
  read_csv := read_csv entorno_ejemplo;
|}.

(** ** Further predicates and small functions for the properties *)

(** Every white space character of [s] is the plain space. *)
Definition solo_espacios (s : str) : Prop :=
  Forall (λ c, isspace c = true → c = 32%N) s.

(** [k] zeros in front of a decimal number. *)
Fixpoint ceros (k : nat) (u : Decimal.uint) : Decimal.uint :=
  match k with
  | 0 => u
  | S k' => D0 (ceros k' u)
  end.

(** The pattern matches the text, whatever its group 1. *)
Definition coincide (E : entorno) (texto patron : str) : bool :=
  match re_search E patron texto with
  | Match _ => true
  | ReError | SinMatch => false
  end.

(** The pattern gives no name on the text without raising: it is refused
    by [re], does not match, or its group 1 is too short once cleaned. *)
Definition sin_nombre_util (E : entorno) (texto patron : str) : Prop :=
  match re_search E patron texto with
  | ReError | SinMatch => True
  | Match (Grupo g) => length (nombre_de_grupo g) ≤ 2
  | Match _ => False
  end.

(** The input file can be deleted: it exists and its [unlink] succeeds. *)
Definition borrable (E : entorno) (ruta_pdf : str) : bool :=
  match leer_pdf E ruta_pdf with
  | Some _ => unlink_entrada E ruta_pdf
  | None => false
  end.

(** The state after the batch run of the example. *)
Definition corrida_carpeta : res (list resultados) * estado :=
  procesar_carpeta_entrada entorno_ejemplo None [] [] true true
    (estado_inicial ∅).

(** The run of the three pages with a full disk. *)
Definition corrida_disco_lleno : res resultados * estado :=
  separar_certificados entorno_disco_lleno (lit "certificados.pdf") None
    None None [] [] (estado_inicial ∅).

(** The rounds given to the loop suffice: the name is free, or one of the
    counters the rounds go through is. *)
Definition pasos_bastan (pasos : nat) (fs : gset str)
    (prefijo nombre_limpio sufijo nombre_archivo : str) (contador : nat)
  : Prop :=
  nombre_archivo ∉ fs
  ∨ ∃ k, contador ≤ k < contador + pasos
         ∧ nombre_numerado prefijo nombre_limpio sufijo k ∉ fs.



(** A text without path separator: neither slash nor backslash. *)
Definition sin_separador (s : str) : Prop :=
  Forall (λ c, c ≠ 47%N ∧ c ≠ 92%N) s.

(** A file name that lines 273-281 form around a sanitised name: the
    name between prefix and suffix with .pdf, or the same with a counter. *)
Definition nombre_de_salida (prefijo sufijo a : str) : Prop :=
  ∃ limpio,
    sin_reservados limpio
    ∧ (a = nombre_base prefijo limpio sufijo
       ∨ ∃ n, a = nombre_numerado prefijo limpio sufijo n).

(** An output folder with a text file, an old PDF and a PDF in a folder of
    its own, and the run of the example in it. *)
Definition estado_mixto : estado :=
  estado_inicial {[ lit "notas.txt"; lit "viejo.pdf"; lit "sub/otro.pdf" ]}.

Definition corrida_mixta : res resultados * estado :=
  separar_certificados entorno_ejemplo (lit "certificados.pdf") None
    (Some [lit "Bob Smith"]) None [] [] estado_mixto.

(** The example, where the operating system refuses the name of page 2. *)
Definition entorno_ruta_rechazada : entorno := {|
  re_search := buscar_marcador;
  patrones_txt := Some dos_marcadores;
  leer_pdf := leer_pdf entorno_ejemplo;
  path_name := λ ruta, ruta;
  carpeta_salida_defecto := carpeta_salida_defecto entorno_ejemplo;
  carpeta_entrada := carpeta_entrada entorno_ejemplo;
  ruta_en := ruta_en entorno_ejemplo;
  escribir := λ _ _ nombre_archivo,
    if bool_decide (nombre_archivo = lit "certificado_002.pdf")
    then RutaRechazada (lit "File name too long") else Escrito;
  unlink_salida := λ _, true;
  unlink_entrada := λ _, true;
  entrada := Some [lit "entrada/lote.pdf"];
  existe_ruta := existe_ruta entorno_ejemplo;
  suffix_lower := sufijo_de_ruta;
  read_excel := read_excel entorno_ejemplo;
  read_csv := read_csv entorno_ejemplo;
|}.

(** * Properties *)

(** Unfolds the operations of the monad [M] in the goal. *)
Ltac desplegar_M :=
  unfold mbind, M_bind, mret, M_ret, mkdir, abrir, cerrar, elevar,
    try_except;
  cbn beta iota.

(** ** Strings *)

Section Cadenas.

Implicit Types (s k : str) (p : N → bool).

Lemma lstrip_sufijo s : ∃ k, s = k ++ lstrip s.
Proof.
  induction s as [|c s [k IH]]; simpl.
  - by exists [].
  - destruct (isspace c).
    + exists (c :: k). simpl. by f_equal.
    + by exists [].
Qed.

Lemma rstrip_prefijo s : ∃ k, s = rstrip s ++ k.
Proof.
  unfold rstrip. destruct (lstrip_sufijo (reverse s)) as [k Hk].
  exists (reverse k).
  rewrite <- reverse_app, <- Hk. by rewrite reverse_involutive.
Qed.

Lemma strip_infijo s : ∃ k1 k2, s = k1 ++ strip s ++ k2.
Proof.
  unfold strip. destruct (lstrip_sufijo s) as [k1 H1].
  destruct (rstrip_prefijo (lstrip s)) as [k2 H2].
  exists k1, k2. by rewrite <- H2.
Qed.

Lemma lstrip_empieza s : empieza_en_blanco (lstrip s) = false.
Proof.
  induction s as [|c s IH]; simpl; [done|].
  destruct (isspace c) eqn:Hc; [done|]. simpl. by rewrite Hc.
Qed.

Lemma rstrip_acaba s : acaba_en_blanco (rstrip s) = false.
Proof.
  unfold acaba_en_blanco, rstrip. rewrite reverse_involutive.
  apply lstrip_empieza.
Qed.

Lemma empieza_prefijo s k :
  empieza_en_blanco (s ++ k) = false → empieza_en_blanco s = false.
Proof. by destruct s. Qed.

Lemma strip_empieza s : empieza_en_blanco (strip s) = false.
Proof.
  unfold strip. destruct (rstrip_prefijo (lstrip s)) as [k Hk].
  apply (empieza_prefijo _ k). rewrite <- Hk. apply lstrip_empieza.
Qed.

Lemma strip_acaba s : acaba_en_blanco (strip s) = false.
Proof. apply rstrip_acaba. Qed.

Lemma vecinos_app p s k :
  vecinos p (s ++ k) = false → vecinos p s = false ∧ vecinos p k = false.
Proof.
  induction s as [|a s IH]; simpl; [done|].
  destruct s as [|b s]; simpl in *.
  - destruct k as [|b k]; [done|].
    intros [_ H]%orb_false_iff. done.
  - intros [H1 H2]%orb_false_iff. destruct (IH H2) as [H3 H4].
    split; [|done]. by rewrite H1, H3.
Qed.

Lemma vecinos_strip p s : vecinos p s = false → vecinos p (strip s) = false.
Proof.
  destruct (strip_infijo s) as (k1 & k2 & Hs). rewrite Hs at 1.
  intros [_ H]%vecinos_app. by apply vecinos_app in H as [H _].
Qed.



(** After [re.sub(r'\s+', ' ', s)] no two white space characters touch, and
    the text following a replaced run does not start with white space. *)
Lemma sub_espacios_desde_vecinos dentro s :
  vecinos isspace (sub_espacios_desde dentro s) = false
  ∧ (dentro = true → empieza_en_blanco (sub_espacios_desde dentro s) = false).
Proof.
  revert dentro. induction s as [|c s IH]; intros dentro; simpl; [done|].
  destruct (isspace c) eqn:Hc.
  - destruct dentro.
    + apply IH.
    + split; [|done]. destruct (IH true) as [H1 H2].
      specialize (H2 eq_refl). simpl.
      destruct (sub_espacios_desde true s) as [|b t]; [done|].
      simpl in H2. by rewrite H2, H1.
  - destruct (IH false) as [H1 _]. split.
    + simpl. destruct (sub_espacios_desde false s) as [|b t]; [done|].
      by rewrite Hc, H1.
    + intros _. simpl. done.
Qed.

Lemma sub_espacios_vecinos s : vecinos isspace (sub_espacios s) = false.
Proof. apply sub_espacios_desde_vecinos. Qed.

Lemma sub_espacios_desde_Forall (P : N → Prop) dentro s :
  P 32%N → Forall P s → Forall P (sub_espacios_desde dentro s).
Proof.
  intros H32 Hs. revert dentro.
  induction Hs as [|c s Hc Hs IH]; intros dentro; simpl; [done|].
  destruct (isspace c); [destruct dentro|]; auto.
Qed.

Lemma Forall_strip (P : N → Prop) s : Forall P s → Forall P (strip s).
Proof.
  destruct (strip_infijo s) as (k1 & k2 & Hs). rewrite Hs at 1.
  intros [_ [H _]%Forall_app]%Forall_app. done.
Qed.

Lemma sub_espacios_desde_sin_salto (dentro : bool) (s : str) :
  Forall (λ c, c ≠ 10%N) (sub_espacios_desde dentro s).
Proof.
  revert dentro. induction s as [|c s IH]; intros dentro; simpl; [done|].
  destruct (isspace c) eqn:Hc.
  - destruct dentro; [done|]. by constructor.
  - constructor; [|done]. by intros ->.
Qed.

Lemma primera_linea_sin_salto (s : str) :
  Forall (λ c, c ≠ 10%N) s → primera_linea s = s.
Proof.
  induction 1 as [|c s Hc _ IH]; simpl; [done|].
  destruct (N.eqb_spec c 10) as [->|_]; [done|]. by rewrite IH.
Qed.
End Cadenas.

(** ** limpiar_nombre_archivo *)

Lemma quitar_reservados_sin s : sin_reservados (quitar_reservados s).
Proof.
  unfold sin_reservados, quitar_reservados.
  apply Forall_forall. intros c Hc. by apply list_elem_of_filter in Hc as [? _].
Qed.

Lemma nombre_depurado_sin nombre : sin_reservados (nombre_depurado nombre).
Proof.
  apply Forall_strip, sub_espacios_desde_Forall; [done|].
  apply quitar_reservados_sin.
Qed.

Lemma nombre_depurado_vecinos nombre :
  vecinos isspace (nombre_depurado nombre) = false.
Proof. apply vecinos_strip, sub_espacios_vecinos. Qed.

(** The function in terms of lines 86-90: the default for the empty name,
    else its first hundred characters. *)
Lemma limpiar_nombre_archivo_eq nombre :
  limpiar_nombre_archivo nombre =
    match nombre_depurado nombre with
    | [] => sin_nombre
    | _ => take 100 (nombre_depurado nombre)
    end.
Proof.
  unfold limpiar_nombre_archivo. fold (nombre_depurado nombre).
  destruct (Nat.ltb_spec 100 (length (nombre_depurado nombre))) as [H|H].
  - destruct (nombre_depurado nombre) as [|c s] eqn:E; [simpl in H; lia|].
    done.
  - rewrite (take_ge _ _ H). by destruct (nombre_depurado nombre).
Qed.

(** C1, as stated, fails: ninety-nine letters, a space and one more letter
    are cut after the space, so the result ends in white space; and the
    default name given as input comes back unchanged although the cleaned
    name is not empty. *)
Lemma limpiar_nombre_archivo_sin nombre :
  sin_reservados (limpiar_nombre_archivo nombre).
Proof.
  rewrite limpiar_nombre_archivo_eq.
  pose proof (nombre_depurado_sin nombre) as Hsin.
  destruct (nombre_depurado nombre) as [|c s].
  - apply Forall_forall. intros x Hx. vm_compute in Hx.
    repeat (apply elem_of_cons in Hx as [->|Hx]; [done|]).
    by apply elem_of_nil in Hx.
  - unfold sin_reservados in *. rewrite <- (take_drop 100 (c :: s)) in Hsin.
    by apply Forall_app in Hsin as [? _].
Qed.



(** ** extraer_nombre_de_pagina *)

(** Line 158 changes nothing: line 156 has already turned every line feed
    into a space, so [split] finds no line feed to cut at. *)
Lemma nombre_de_grupo_eq (g : str) :
  nombre_de_grupo g = strip (sub_espacios (strip g)).
Proof.
  unfold nombre_de_grupo. f_equal.
  apply primera_linea_sin_salto, sub_espacios_desde_sin_salto.
Qed.

(** A name found is what lines 154-156 make of group 1 of one of the
    patterns, and is longer than two characters. *)
Lemma probar_patrones_nombre (E : entorno) (texto : str)
    (patrones : list str) (n : str) :
  probar_patrones E texto patrones = Ok (Some n) →
  ∃ patron g,
    patron ∈ patrones
    ∧ re_search E patron texto = Match (Grupo g)
    ∧ n = strip (sub_espacios (strip g))
    ∧ 2 < length n.
Proof.
  induction patrones as [|patron resto IH]; simpl; [done|].
  assert (Hresto : probar_patrones E texto resto = Ok (Some n) →
            ∃ p g, p ∈ patron :: resto
                   ∧ re_search E p texto = Match (Grupo g)
                   ∧ n = strip (sub_espacios (strip g)) ∧ 2 < length n).
  { intros (p & g & Hp & H)%IH. exists p, g. split; [by right|done]. }
  destruct (re_search E patron texto) as [| |[| |g]] eqn:Hre; try done.
  destruct (negb _ && _) eqn:Hlargo; [|done].
  intros [= <-]. exists patron, g.
  apply andb_true_iff in Hlargo as [_ Hlen%Nat.ltb_lt].
  split; [by left|]. split; [done|]. by rewrite <- nombre_de_grupo_eq.
Qed.

(** No name is found when no pattern matches. *)
Lemma probar_patrones_sin_match (E : entorno) (texto : str)
    (patrones : list str) :
  (∀ patron, patron ∈ patrones →
     re_search E patron texto = SinMatch ∨ re_search E patron texto = ReError) →
  probar_patrones E texto patrones = Ok None.
Proof.
  induction patrones as [|patron resto IH]; intros H; simpl; [done|].
  destruct (H patron) as [-> | ->]; [by left|..];
    apply IH; intros p Hp; apply H; by right.
Qed.

(** C4 fails on the code: group 1 holding Jane, a line feed and Doe is
    returned as Jane Doe, the line feed turned into a space, where the cut
    at the first line feed gives Jane. *)
Theorem extraer_nombre_de_pagina_no_corta :
  re_search entorno_dos_lineas patron_dos_lineas texto_dos_lineas
  = Match (Grupo (lit "Jane" ++ [10%N] ++ lit "Doe"))
  ∧ extraer_nombre_de_pagina entorno_dos_lineas texto_dos_lineas
      (Some [patron_dos_lineas])
    = Ok (Some (lit "Jane Doe"))
  ∧ primera_linea (lit "Jane" ++ [10%N] ++ lit "Doe") = lit "Jane".
Proof. repeat split; by vm_compute. Qed.
(** ** Precedence of the list of names *)

(** C2, as stated, fails: index 0 is valid in the list holding one empty
    name, yet page 1 is named by the generated placeholder. *)
Lemma elegir_nombre_lista_vacia :
  [[]] !! 0 = Some ([] : str)
  ∧ elegir_nombre entorno_ejemplo (Some [[]]) dos_marcadores 0
      (lit "Se otorga a: Jane Doe")
    = Ok (lit "certificado_001", Generado).
Proof. split; reflexivity. Qed.

(** At a valid index of the list the extraction is not consulted: the
    entry names the page unless it is empty, and then the placeholder
    does. *)
Lemma elegir_nombre_indice_valido (E : entorno) (lista patrones : list str)
    (i : nat) (pagina : str) :
  i < length lista →
  elegir_nombre E (Some lista) patrones i pagina
  = match lista !! i with
    | Some (c :: s) => Ok (c :: s, DeLista)
    | _ => Ok (lit "certificado_" ++ str_de_nat_03 (i + 1), Generado)
    end.
Proof.
  intros Hlt. unfold elegir_nombre.
  destruct lista as [|n0 lista]; [simpl in Hlt; lia|].
  destruct (Nat.ltb_spec i (length (n0 :: lista))) as [_|?]; [|lia].
  by destruct ((n0 :: lista) !! i) as [[|c s]|].
Qed.

(** C2, amended: when index [i] is valid in the supplied list and the entry
    there is not the empty string, the name of page [i] is that entry, with
    the source tag of the list, whatever the page text and the patterns:
    neither the extraction nor the generated placeholder is used. *)
Theorem elegir_nombre_de_lista (E : entorno) (lista patrones : list str)
    (i : nat) (pagina n : str) :
  lista !! i = Some n → n ≠ [] →
  elegir_nombre E (Some lista) patrones i pagina = Ok (n, DeLista).
Proof.
  intros Hi Hn.
  rewrite elegir_nombre_indice_valido by (by eapply lookup_lt_Some).
  rewrite Hi. by destruct n.
Qed.

Lemma elegir_nombre_de_lista_ejemplo :
  elegir_nombre entorno_ejemplo (Some [lit "Bob Smith"]) dos_marcadores 0
    (lit "Se otorga a: Jane Doe")
  = Ok (lit "Bob Smith", DeLista).
Proof.
  apply (elegir_nombre_de_lista entorno_ejemplo [lit "Bob Smith"]
           dos_marcadores 0 (lit "Se otorga a: Jane Doe") (lit "Bob Smith")).
  - reflexivity.
  - vm_compute. discriminate.
Defined.

(** The names [cargar_lista_nombres] returns are never empty, so for the
    list the command line loads the entry of a valid index always names
    the page. *)
Lemma cargar_lista_nombres_no_vacios (E : entorno) (ruta n : str) :
  n ∈ cargar_lista_nombres E ruta → n ≠ [].
Proof.
  unfold cargar_lista_nombres, cargar_lista_nombres_cuerpo.
  set (df := if bool_decide _ then _ else _). clearbody df.
  destruct df as [nombres|e]; [|by intros ?%elem_of_nil].
  intros [Hn _]%list_elem_of_filter. by destruct n.
Qed.

Lemma elegir_nombre_de_lista_cargada (E : entorno) (ruta : str)
    (patrones : list str) (i : nat) (pagina n : str) :
  cargar_lista_nombres E ruta !! i = Some n →
  elegir_nombre E (Some (cargar_lista_nombres E ruta)) patrones i pagina
  = Ok (n, DeLista).
Proof.
  intros Hi.
  rewrite elegir_nombre_indice_valido by (by eapply lookup_lt_Some).
  rewrite Hi. destruct n as [|c s]; [|done].
  apply list_elem_of_lookup_2, cargar_lista_nombres_no_vacios in Hi. done.
Qed.
(** ** Collisions of file names *)

Lemma digitos_inj u v : digitos u = digitos v → u = v.
Proof.
  revert v. induction u; intros v; destruct v; simpl; intros H;
    try discriminate; try reflexivity;
    f_equal; apply IHu; congruence.
Qed.

Lemma str_de_nat_inj n m : str_de_nat n = str_de_nat m → n = m.
Proof. intros H. by apply Unsigned.to_uint_inj, digitos_inj. Qed.

Lemma nombre_numerado_inj (prefijo nombre_limpio sufijo : str) (n m : nat) :
  nombre_numerado prefijo nombre_limpio sufijo n
  = nombre_numerado prefijo nombre_limpio sufijo m → n = m.
Proof.
  unfold nombre_numerado. intros H.
  do 3 apply app_inv_head in H. apply app_inv_tail in H.
  by apply str_de_nat_inj.
Qed.

(** A folder cannot hold the numbered names of more counters than it has
    names: one of the first [size fs + 1] counters is free. *)
Lemma contador_libre (fs : gset str) (prefijo nombre_limpio sufijo : str) :
  ∃ k, 1 ≤ k < 1 + S (size fs)
       ∧ nombre_numerado prefijo nombre_limpio sufijo k ∉ fs.
Proof.
  set (f := nombre_numerado prefijo nombre_limpio sufijo).
  set (ks := seq 1 (S (size fs))).
  destruct (decide (Forall (λ k, f k ∈ fs) ks)) as [Hall|Hex].
  - exfalso.
    assert (Hnd : NoDup (f <$> ks)).
    { apply NoDup_fmap_2; [|apply NoDup_seq].
      intros n m. apply nombre_numerado_inj. }
    assert (Hsub : list_to_set (C := gset str) (f <$> ks) ⊆ fs).
    { intros x [y [-> Hy]]%elem_of_list_to_set%list_elem_of_fmap.
      by eapply Forall_forall in Hall. }
    apply subseteq_size in Hsub.
    rewrite size_list_to_set, length_fmap in Hsub by done.
    unfold ks in Hsub. rewrite length_seq in Hsub. lia.
  - apply not_Forall_Exists in Hex; [|intros k; apply _].
    apply Exists_exists in Hex as (k & Hk & Hno).
    exists k. split; [|done]. apply elem_of_seq in Hk. lia.
Qed.

Lemma pasos_bastan_S (pasos : nat) (fs : gset str)
    (prefijo nombre_limpio sufijo nombre_archivo : str) (contador : nat) :
  nombre_archivo ∈ fs →
  pasos_bastan (S pasos) fs prefijo nombre_limpio sufijo nombre_archivo
    contador →
  pasos_bastan pasos fs prefijo nombre_limpio sufijo
    (nombre_numerado prefijo nombre_limpio sufijo contador) (S contador).
Proof.
  intros Hin [Hno|(k & Hk & Hlibre)]; [done|].
  destruct (decide (k = contador)) as [->|Hne]; [by left|].
  right. exists k. split; [lia|done].
Qed.

Lemma pasos_bastan_0 (fs : gset str)
    (prefijo nombre_limpio sufijo nombre_archivo : str) (contador : nat) :
  nombre_archivo ∈ fs →
  ¬ pasos_bastan 0 fs prefijo nombre_limpio sufijo nombre_archivo contador.
Proof. intros Hin [Hno|(k & Hk & _)]; [done|lia]. Qed.

(** One round of the loop. *)
Lemma mientras_existe_eq (pasos : nat) (rechazada : str → option str)
    (fs : gset str) (prefijo nombre_limpio sufijo nombre_archivo : str)
    (contador : nat) :
  mientras_existe pasos rechazada fs prefijo nombre_limpio sufijo
    nombre_archivo contador
  = match rechazada nombre_archivo with
    | Some mensaje => Raise (OSError mensaje)
    | None =>
        if bool_decide (nombre_archivo ∈ fs)
        then match pasos with
             | 0 => Ok nombre_archivo
             | S pasos' =>
                 mientras_existe pasos' rechazada fs prefijo nombre_limpio
                   sufijo
                   (nombre_numerado prefijo nombre_limpio sufijo contador)
                   (S contador)
             end
        else Ok nombre_archivo
    end.
Proof.
  destruct pasos; cbn [mientras_existe]; unfold existe;
    destruct (rechazada nombre_archivo); try done;
    by case_bool_decide.
Qed.

(** The loop, given enough rounds to reach a free counter and ending
    without [OSError]: it keeps a name that does not exist, and otherwise
    stops at the first free counter; the path of the name it returns was
    not refused. *)
Lemma mientras_existe_correcto (pasos : nat) (rechazada : str → option str)
    (fs : gset str) (prefijo nombre_limpio sufijo nombre_archivo : str)
    (contador : nat) (a : str) :
  pasos_bastan pasos fs prefijo nombre_limpio sufijo nombre_archivo contador →
  mientras_existe pasos rechazada fs prefijo nombre_limpio sufijo
    nombre_archivo contador = Ok a →
  rechazada a = None
  ∧ (((nombre_archivo ∉ fs) ∧ a = nombre_archivo)
     ∨ (nombre_archivo ∈ fs
        ∧ ∃ k, contador ≤ k
               ∧ a = nombre_numerado prefijo nombre_limpio sufijo k
               ∧ (a ∉ fs)
               ∧ ∀ m, (contador ≤ m < k) →
                      nombre_numerado prefijo nombre_limpio sufijo m ∈ fs)).
Proof.
  revert nombre_archivo contador.
  induction pasos as [|pasos IH]; intros nombre_archivo contador Hbastan;
    rewrite mientras_existe_eq;
    destruct (rechazada nombre_archivo) eqn:Hrech; try discriminate;
    case_bool_decide as Hex.
  - by destruct (pasos_bastan_0 _ _ _ _ _ _ Hex Hbastan).
  - intros [= <-]. split; [done|]. by left.
  - intros Hrun. apply pasos_bastan_S in Hbastan; [|done].
    destruct (IH _ _ Hbastan Hrun)
      as [Hra [[Hno ->]|(Hsi & k & Hk & -> & Hlibre & Hmin)]].
    + split; [done|]. right. split; [done|]. exists contador.
      split; [lia|]. split; [done|]. split; [done|]. intros m Hm. lia.
    + split; [done|]. right. split; [done|]. exists k.
      split; [lia|]. split; [done|]. split; [done|].
      intros m Hm. destruct (decide (m = contador)) as [->|]; [done|].
      apply Hmin. lia.
  - intros [= <-]. split; [done|]. by left.
Qed.

(** The name chosen by lines 273-281 in a folder holding the names [fs],
    when no [OSError] ends the loop. *)
Lemma nombre_libre_correcto (rechazada : str → option str) (fs : gset str)
    (prefijo nombre_limpio sufijo a : str) :
  nombre_libre rechazada fs prefijo nombre_limpio sufijo = Ok a →
  rechazada a = None
  ∧ (a ∉ fs)
  ∧ (nombre_base prefijo nombre_limpio sufijo ∉ fs →
     a = nombre_base prefijo nombre_limpio sufijo)
  ∧ (nombre_base prefijo nombre_limpio sufijo ∈ fs →
     ∃ n, 1 ≤ n
          ∧ a = nombre_numerado prefijo nombre_limpio sufijo n
          ∧ ∀ m, (1 ≤ m < n) →
                 nombre_numerado prefijo nombre_limpio sufijo m ∈ fs).
Proof.
  unfold nombre_libre. intros Hrun.
  apply mientras_existe_correcto in Hrun
    as [Hra [[Hno ->]|(Hsi & k & Hk & -> & Hlibre & Hmin)]].
  - split; [done|]. split; [done|]. split; [done|]. intros ?. done.
  - split; [done|]. split; [done|]. split; [done|]. intros _. by exists k.
  - right. apply contador_libre.
Qed.

(** Without a refused path the loop ends with a name. *)
Lemma mientras_existe_termina (pasos : nat) (rechazada : str → option str)
    (fs : gset str) (prefijo nombre_limpio sufijo nombre_archivo : str)
    (contador : nat) :
  (∀ n, rechazada n = None) →
  ∃ a, mientras_existe pasos rechazada fs prefijo nombre_limpio sufijo
         nombre_archivo contador = Ok a.
Proof.
  intros Hrech. revert nombre_archivo contador.
  induction pasos as [|pasos IH]; intros nombre_archivo contador;
    rewrite mientras_existe_eq, Hrech; case_bool_decide; eauto.
Qed.

Lemma nombre_libre_termina (rechazada : str → option str) (fs : gset str)
    (prefijo nombre_limpio sufijo : str) :
  (∀ n, rechazada n = None) →
  ∃ a, nombre_libre rechazada fs prefijo nombre_limpio sufijo = Ok a.
Proof. apply mientras_existe_termina. Qed.

Lemma es_pdf_nombre_base (prefijo nombre_limpio sufijo : str) :
  es_pdf (nombre_base prefijo nombre_limpio sufijo) = true.
Proof.
  unfold es_pdf, nombre_base. apply bool_decide_eq_true.
  exists (prefijo ++ nombre_limpio ++ sufijo). by rewrite <- !(assoc_L (++)).
Qed.

Lemma es_pdf_nombre_numerado (prefijo nombre_limpio sufijo : str) (n : nat) :
  es_pdf (nombre_numerado prefijo nombre_limpio sufijo n) = true.
Proof.
  unfold es_pdf, nombre_numerado. apply bool_decide_eq_true.
  exists (prefijo ++ nombre_limpio ++ lit "_" ++ str_de_nat n ++ sufijo).
  by rewrite <- !(assoc_L (++)).
Qed.

(** The name the loop returns is one it forms, around a sanitised name. *)
Lemma nombre_de_salida_libre (rechazada : str → option str) (fs : gset str)
    (prefijo nombre sufijo a : str) :
  nombre_libre rechazada fs prefijo (limpiar_nombre_archivo nombre) sufijo
  = Ok a →
  nombre_de_salida prefijo sufijo a.
Proof.
  intros (_ & _ & Hbase & Hnum)%nombre_libre_correcto.
  exists (limpiar_nombre_archivo nombre).
  split; [apply limpiar_nombre_archivo_sin|].
  destruct (decide (nombre_base prefijo (limpiar_nombre_archivo nombre)
                      sufijo ∈ fs)) as [Hin|Hin].
  - right. destruct (Hnum Hin) as (n & _ & -> & _). by exists n.
  - left. by apply Hbase.
Qed.

Lemma nombre_de_salida_es_pdf (prefijo sufijo a : str) :
  nombre_de_salida prefijo sufijo a → es_pdf a = true.
Proof.
  intros (limpio & _ & [->|[n ->]]);
    [apply es_pdf_nombre_base|apply es_pdf_nombre_numerado].
Qed.

Lemma digitos_sin_barra (u : Decimal.uint) : 47%N ∉ digitos u.
Proof.
  induction u; simpl; try apply not_elem_of_nil;
    (apply not_elem_of_cons; split; [done|exact IHu]).
Qed.

(** With no separator in prefix and suffix, the names the loop forms are
    entries of the output folder itself. *)
Lemma nombre_de_salida_directo (prefijo sufijo a : str) :
  sin_separador prefijo → sin_separador sufijo →
  nombre_de_salida prefijo sufijo a → directo a = true.
Proof.
  intros Hp Hs (limpio & Hl & Ha).
  assert (Hp' : 47%N ∉ prefijo).
  { intros Hin. eapply Forall_forall in Hp; [|exact Hin]. by destruct Hp. }
  assert (Hs' : 47%N ∉ sufijo).
  { intros Hin. eapply Forall_forall in Hs; [|exact Hin]. by destruct Hs. }
  assert (Hl' : 47%N ∉ limpio).
  { intros Hin. eapply Forall_forall in Hl; [|exact Hin]. done. }
  apply bool_decide_eq_true.
  destruct Ha as [->|[n ->]]; unfold nombre_base, nombre_numerado;
    rewrite ?elem_of_app; intros Hin.
  - destruct Hin as [?|[?|[?|Hin]]]; try done.
    vm_compute in Hin.
    repeat (apply elem_of_cons in Hin as [Hin|Hin]; [done|]).
    by apply elem_of_nil in Hin.
  - destruct Hin as [?|[?|[Hin|[Hin|[?|Hin]]]]]; try done.
    + by apply list_elem_of_singleton in Hin.
    + by apply digitos_sin_barra in Hin.
    + vm_compute in Hin.
      repeat (apply elem_of_cons in Hin as [Hin|Hin]; [done|]).
      by apply elem_of_nil in Hin.
Qed.

Lemma purgadas_mismos_pdf (fs1 fs2 : gset str) :
  purgada fs1 → purgada fs2 → mismos_pdf fs1 fs2.
Proof.
  intros H1 H2 n Hn. split; intros Hin.
  - apply H1 in Hin. congruence.
  - apply H2 in Hin. congruence.
Qed.

(** The loop goes the same way in two folders holding the same PDFs. *)
Lemma mientras_existe_mismos_pdf (pasos1 pasos2 : nat)
    (rechazada : str → option str) (fs1 fs2 : gset str)
    (prefijo nombre_limpio sufijo nombre_archivo : str) (contador : nat) :
  mismos_pdf fs1 fs2 →
  es_pdf nombre_archivo = true →
  pasos_bastan pasos1 fs1 prefijo nombre_limpio sufijo nombre_archivo
    contador →
  pasos_bastan pasos2 fs2 prefijo nombre_limpio sufijo nombre_archivo
    contador →
  mientras_existe pasos1 rechazada fs1 prefijo nombre_limpio sufijo
    nombre_archivo contador
  = mientras_existe pasos2 rechazada fs2 prefijo nombre_limpio sufijo
      nombre_archivo contador.
Proof.
  intros Hfs. revert pasos2 nombre_archivo contador.
  induction pasos1 as [|pasos1 IH]; intros pasos2 nombre_archivo contador
    Hpdf H1 H2;
    rewrite !(mientras_existe_eq _ _ _ _ _ _ nombre_archivo);
    destruct (rechazada nombre_archivo); try done;
    (case_bool_decide as Hin1; case_bool_decide as Hin2;
     [| by apply (Hfs _ Hpdf) in Hin1 | by apply (Hfs _ Hpdf) in Hin2 | done]).
  - by destruct (pasos_bastan_0 _ _ _ _ _ _ Hin1 H1).
  - destruct pasos2 as [|pasos2];
      [by destruct (pasos_bastan_0 _ _ _ _ _ _ Hin2 H2)|].
    apply IH.
    + apply es_pdf_nombre_numerado.
    + by apply (pasos_bastan_S _ _ _ _ _ nombre_archivo).
    + by apply (pasos_bastan_S _ _ _ _ _ nombre_archivo).
Qed.

(** The name chosen depends on the PDFs of the folder only. *)
Lemma nombre_libre_mismos_pdf (rechazada : str → option str)
    (fs1 fs2 : gset str) (prefijo nombre_limpio sufijo : str) :
  mismos_pdf fs1 fs2 →
  nombre_libre rechazada fs1 prefijo nombre_limpio sufijo
  = nombre_libre rechazada fs2 prefijo nombre_limpio sufijo.
Proof.
  intros Hfs. unfold nombre_libre. apply mientras_existe_mismos_pdf.
  - done.
  - apply es_pdf_nombre_base.
  - right. apply contador_libre.
  - right. apply contador_libre.
Qed.

Lemma mismos_pdf_crear (fs1 fs2 : gset str) (a : str) :
  mismos_pdf fs1 fs2 → mismos_pdf ({[a]} ∪ fs1) ({[a]} ∪ fs2).
Proof.
  intros Hfs n Hn. specialize (Hfs n Hn).
  rewrite !elem_of_union, Hfs. done.
Qed.

(** ** Writing one page *)

Lemma escribir_pagina_eq (E : entorno) (ruta_pdf carpeta_salida : str)
    (i : nat) (nombre nombre_archivo : str) (origen : origen_t)
    (r : resultados) (st : estado) :
  escribir_pagina E ruta_pdf carpeta_salida i nombre nombre_archivo origen
    r st =
    match escribir E ruta_pdf i nombre_archivo with
    | Escrito =>
        (Ok (anotar_exito r
               {| pagina := i + 1; nombre := nombre;
                  archivo := ruta_en E carpeta_salida nombre_archivo;
                  origen := origen |}),
         con_abiertos
           (filter (λ h, h ≠ HSalida ruta_pdf i)
                   (HSalida ruta_pdf i :: abiertos st))
           (con_salida ({[nombre_archivo]} ∪ salida st) st))
    | FallaAbrir mensaje =>
        (Ok (anotar_error r {| pagina_fallida := i + 1; error := mensaje |}),
         st)
    | FallaGuardar mensaje true =>
        (Ok (anotar_error r {| pagina_fallida := i + 1; error := mensaje |}),
         con_salida ({[nombre_archivo]} ∪ salida st)
           (con_abiertos (HSalida ruta_pdf i :: abiertos st) st))
    | RutaRechazada mensaje | FallaInsertar mensaje
    | FallaGuardar mensaje false =>
        (Ok (anotar_error r {| pagina_fallida := i + 1; error := mensaje |}),
         con_abiertos (HSalida ruta_pdf i :: abiertos st) st)
    end.
Proof.
  unfold escribir_pagina.
  by destruct (escribir E ruta_pdf i nombre_archivo) as [| | | |? []].
Qed.

(** A page that is written leaves no handle of its own behind. *)
Lemma escribir_pagina_cierra (E : entorno) (ruta_pdf carpeta_salida : str)
    (i : nat) (nombre nombre_archivo : str) (origen : origen_t)
    (r : resultados) (st : estado) :
  escribir E ruta_pdf i nombre_archivo = Escrito →
  HSalida ruta_pdf i
  ∉ abiertos (escribir_pagina E ruta_pdf carpeta_salida i nombre
                nombre_archivo origen r st).2.
Proof.
  intros H. rewrite escribir_pagina_eq, H. cbn [snd con_abiertos abiertos].
  intros [Hne _]%list_elem_of_filter. done.
Qed.

(** A page whose [insert_pdf] or [save] raises leaves its handle open:
    line 288 is skipped and the [except] of line 301 does not close. *)
Lemma escribir_pagina_deja_abierto (E : entorno)
    (ruta_pdf carpeta_salida : str) (i : nat)
    (nombre nombre_archivo mensaje : str) (origen : origen_t)
    (r : resultados) (st : estado) :
  escribir E ruta_pdf i nombre_archivo = FallaInsertar mensaje
  ∨ (∃ queda, escribir E ruta_pdf i nombre_archivo
              = FallaGuardar mensaje queda) →
  abiertos (escribir_pagina E ruta_pdf carpeta_salida i nombre
              nombre_archivo origen r st).2
  = HSalida ruta_pdf i :: abiertos st.
Proof.
  intros [H|[[] H]]; by rewrite escribir_pagina_eq, H.
Qed.
(** ** The loop over the pages *)

Lemma particion_hasta_vacia (total_paginas : nat) (nombre_pdf : str) :
  particion_hasta 0 (sin_resultados total_paginas nombre_pdf).
Proof. repeat split; constructor. Qed.

Lemma particion_hasta_exito (n : nat) (r : resultados) (e : exito) :
  pagina e = S n → particion_hasta n r → particion_hasta (S n) (anotar_exito r e).
Proof.
  intros He (Hex & Her & Hperm).
  unfold particion_hasta, paginas_exitosas, paginas_fallidas in *.
  cbn [anotar_exito exitosos errores]. rewrite fmap_app.
  change (pagina <$> [e]) with [pagina e]. rewrite He.
  split; [|split; [done|]].
  - apply StronglySorted_app. split; [|split; [done|]].
    + intros x1 x2 Hx1 ->%list_elem_of_singleton.
      assert (x1 ∈ seq 1 n) as Hin.
      { rewrite <- Hperm. apply elem_of_app. by left. }
      apply elem_of_seq in Hin. lia.
    + repeat constructor.
  - rewrite seq_S. change (1 + n) with (S n). rewrite <- Hperm.
    rewrite <- !(assoc_L (++)). apply Permutation_app_head.
    apply Permutation_app_comm.
Qed.

Lemma particion_hasta_error (n : nat) (r : resultados) (f : fallo) :
  pagina_fallida f = S n → particion_hasta n r →
  particion_hasta (S n) (anotar_error r f).
Proof.
  intros Hf (Hex & Her & Hperm).
  unfold particion_hasta, paginas_exitosas, paginas_fallidas in *.
  cbn [anotar_error exitosos errores]. rewrite fmap_app.
  change (pagina_fallida <$> [f]) with [pagina_fallida f]. rewrite Hf.
  split; [done|split].
  - apply StronglySorted_app. split; [|split; [done|]].
    + intros x1 x2 Hx1 ->%list_elem_of_singleton.
      assert (x1 ∈ seq 1 n) as Hin.
      { rewrite <- Hperm. apply elem_of_app. by right. }
      apply elem_of_seq in Hin. lia.
    + repeat constructor.
  - rewrite seq_S. change (1 + n) with (S n). rewrite <- Hperm.
    by rewrite (assoc_L (++)).
Qed.
Section Bucle.

Context (E : entorno) (ruta_pdf carpeta_salida : str).
Context (lista_nombres : option (list str)).
Context (patrones : list str) (prefijo sufijo : str).

Local Abbreviation paso :=
  (procesar_pagina E ruta_pdf carpeta_salida lista_nombres patrones prefijo
     sufijo).
Local Abbreviation bucle :=
  (procesar_paginas E ruta_pdf carpeta_salida lista_nombres patrones prefijo
     sufijo).
Local Abbreviation libre i fs nombre :=
  (nombre_libre (rechazo E ruta_pdf i) fs prefijo
     (limpiar_nombre_archivo nombre) sufijo).

Implicit Types (i : nat) (pagina : str) (r : resultados) (st : estado).

Lemma procesar_pagina_eq i pagina r st :
  paso i pagina r st
  = match elegir_nombre E lista_nombres patrones i pagina with
    | Raise e => (Raise e, st)
    | Ok (nombre, origen) =>
        match libre i (salida st) nombre with
        | Raise e => (Raise e, st)
        | Ok nombre_archivo =>
            escribir_pagina E ruta_pdf carpeta_salida i nombre nombre_archivo
              origen r st
        end
    end.
Proof.
  unfold procesar_pagina. desplegar_M.
  destruct (elegir_nombre E lista_nombres patrones i pagina) as [[n o]|e];
    [|done].
  unfold leer_salida. by destruct (libre i (salida st) n).
Qed.

(** The two ways a round ends without an exception: the page is written
    under the free name and noted as a success, or the write fails and an
    error is noted, the folder being left as it was unless the failed
    [save] leaves a file under the free name. *)
Lemma procesar_pagina_casos i pagina r st r' st' :
  paso i pagina r st = (Ok r', st') →
  ∃ nombre origen a,
    elegir_nombre E lista_nombres patrones i pagina = Ok (nombre, origen)
    ∧ libre i (salida st) nombre = Ok a
    ∧ ((escribir E ruta_pdf i a = Escrito
        ∧ r' = anotar_exito r {| pagina := i + 1; nombre := nombre;
                                 archivo := ruta_en E carpeta_salida a;
                                 origen := origen |}
        ∧ salida st' = {[a]} ∪ salida st)
       ∨ (escribir E ruta_pdf i a ≠ Escrito
          ∧ (∃ mensaje, r' = anotar_error r {| pagina_fallida := i + 1;
                                               error := mensaje |})
          ∧ (salida st' = salida st ∨ salida st' = {[a]} ∪ salida st))).
Proof.
  rewrite procesar_pagina_eq.
  destruct (elegir_nombre E lista_nombres patrones i pagina) as [[n o]|e];
    [|discriminate].
  destruct (libre i (salida st) n) as [a|e] eqn:Hlibre; [|discriminate].
  rewrite escribir_pagina_eq. intros H. exists n, o, a.
  split; [done|]. split; [done|].
  destruct (escribir E ruta_pdf i a) as [|m|m|m|m []];
    injection H as <- <-; [left|right..]; eauto 6.
Qed.

(** C3: a round of the loop that ends without an exception has chosen a
    file name that did not exist in the output folder: the name
    prefijo + name + sufijo + .pdf when it is free, and otherwise
    prefijo + name + _n + sufijo + .pdf for the least n from 1 on whose
    name is free.  The round writes under that name and under no other:
    every file the folder held is still there, and the folder holds nothing
    new but, at most, that name.  Either the write succeeds, the page is
    noted as a success with the path of that name and the folder then
    holds the name; or the write fails and the page is noted as an
    error. *)
Theorem procesar_pagina_sin_sobrescribir i pagina r r' st st' :
  paso i pagina r st = (Ok r', st') →
  ∃ nombre origen a,
    elegir_nombre E lista_nombres patrones i pagina = Ok (nombre, origen)
    ∧ (a ∉ salida st)
    ∧ (let limpio := limpiar_nombre_archivo nombre in
       (nombre_base prefijo limpio sufijo ∉ salida st →
        a = nombre_base prefijo limpio sufijo)
       ∧ (nombre_base prefijo limpio sufijo ∈ salida st →
          ∃ n, 1 ≤ n
               ∧ a = nombre_numerado prefijo limpio sufijo n
               ∧ ∀ m, (1 ≤ m < n) →
                      nombre_numerado prefijo limpio sufijo m ∈ salida st))
    ∧ salida st ⊆ salida st'
    ∧ salida st' ⊆ {[a]} ∪ salida st
    ∧ ((escribir E ruta_pdf i a = Escrito
        ∧ r' = anotar_exito r {| pagina := i + 1; nombre := nombre;
                                 archivo := ruta_en E carpeta_salida a;
                                 origen := origen |}
        ∧ salida st' = {[a]} ∪ salida st)
       ∨ (escribir E ruta_pdf i a ≠ Escrito
          ∧ ∃ mensaje, r' = anotar_error r {| pagina_fallida := i + 1;
                                              error := mensaje |})).
Proof.
  intros (n & o & a & Hn & Hlibre & Hcasos)%procesar_pagina_casos.
  apply nombre_libre_correcto in Hlibre as (_ & Hno & Hbase & Hnum).
  exists n, o, a. split; [done|]. split; [done|]. split; [done|].
  destruct Hcasos as [(Hesc & Hr & Hst)|(Hesc & Hr & [Hst|Hst])];
    rewrite Hst.
  - split; [apply union_subseteq_r|]. split; [done|]. by left.
  - split; [done|]. split; [apply union_subseteq_r|]. by right.
  - split; [apply union_subseteq_r|]. split; [done|]. by right.
Qed.

Lemma procesar_paginas_cons i pagina (resto : list str) r st :
  bucle i (pagina :: resto) r st
  = match paso i pagina r st with
    | (Ok r1, st1) => bucle (S i) resto r1 st1
    | (Raise e, st1) => (Raise e, st1)
    end.
Proof. reflexivity. Qed.

(** An invariant of the rounds that end without exception holds at the end
    of a loop that ends without exception. *)
Lemma procesar_paginas_invariante (Inv : nat → resultados → estado → Prop) :
  (∀ i pagina r st r1 st1,
     Inv i r st → paso i pagina r st = (Ok r1, st1) → Inv (S i) r1 st1) →
  ∀ (paginas : list str) i r st r' st',
    Inv i r st →
    bucle i paginas r st = (Ok r', st') →
    Inv (i + length paginas) r' st'.
Proof.
  intros Hpaso paginas.
  induction paginas as [|pagina resto IH]; intros i r st r' st' Hinv.
  - intros [= <- <-]. by rewrite Nat.add_0_r.
  - rewrite procesar_paginas_cons.
    destruct (paso i pagina r st) as [[r1|e] st1] eqn:H1; [|discriminate].
    intros H. simpl. rewrite <- Nat.add_succ_comm.
    eapply IH; [|exact H]. eapply Hpaso; [exact Hinv|exact H1].
Qed.

(** The loop adds every page it goes through to one of the two lists. *)
Lemma procesar_paginas_particion (paginas : list str) i r r' st st' :
  particion_hasta i r →
  bucle i paginas r st = (Ok r', st') →
  particion_hasta (i + length paginas) r' ∧ total r' = total r.
Proof.
  intros Hinv Hrun.
  apply (procesar_paginas_invariante
           (λ n r1 _, particion_hasta n r1 ∧ total r1 = total r))
    in Hrun; [done| |done].
  clear. intros i pagina r0 st r1 st1 [Hp Ht] H.
  apply procesar_pagina_casos in H
    as (n & o & a & _ & _ & [(_ & -> & _)|(_ & [m ->] & _)]).
  - split; [|done]. apply particion_hasta_exito; [simpl; lia|done].
  - split; [|done]. apply particion_hasta_error; [simpl; lia|done].
Qed.

(** A round gives the same summary in two folders holding the same PDFs,
    and leaves them holding the same PDFs. *)
Lemma procesar_pagina_mismos_pdf i pagina r (st1 st2 : estado) :
  mismos_pdf (salida st1) (salida st2) →
  (paso i pagina r st1).1 = (paso i pagina r st2).1
  ∧ mismos_pdf (salida (paso i pagina r st1).2)
      (salida (paso i pagina r st2).2).
Proof.
  intros Hfs. rewrite !procesar_pagina_eq.
  destruct (elegir_nombre E lista_nombres patrones i pagina) as [[n o]|e];
    [|done].
  rewrite (nombre_libre_mismos_pdf _ _ _ _ _ _ Hfs).
  destruct (libre i (salida st2) n) as [a|e]; [|done].
  rewrite !escribir_pagina_eq.
  destruct (escribir E ruta_pdf i a) as [| | | |? []]; simpl; split;
    try done; by apply mismos_pdf_crear.
Qed.

Lemma procesar_paginas_mismos_pdf (paginas : list str) i r
    (st1 st2 : estado) :
  mismos_pdf (salida st1) (salida st2) →
  (bucle i paginas r st1).1 = (bucle i paginas r st2).1
  ∧ mismos_pdf (salida (bucle i paginas r st1).2)
      (salida (bucle i paginas r st2).2).
Proof.
  revert i r st1 st2.
  induction paginas as [|pagina resto IH]; intros i r st1 st2 Hfs; [done|].
  rewrite !procesar_paginas_cons.
  pose proof (procesar_pagina_mismos_pdf i pagina r st1 st2 Hfs) as Hpaso.
  destruct (paso i pagina r st1) as [x1 st1'].
  destruct (paso i pagina r st2) as [x2 st2'].
  destruct Hpaso as [Hr Hst]. simpl in Hr, Hst. subst x2.
  destruct x1 as [r1|e]; [|done].
  by apply IH.
Qed.

End Bucle.

(** ** separar_certificados as a whole *)

Section Separar.

Context (E : entorno) (ruta_pdf : str) (carpeta_salida : option str).
Context (lista_nombres patrones : option (list str)) (prefijo sufijo : str).

Local Abbreviation separar :=
  (separar_certificados E ruta_pdf carpeta_salida lista_nombres patrones
     prefijo sufijo).
Local Abbreviation bucle :=
  (procesar_paginas E ruta_pdf (carpeta_de E carpeta_salida) lista_nombres
     (patrones_efectivos E patrones) prefijo sufijo).
Local Abbreviation con_carpeta st :=
  (con_carpetas ({[carpeta_de E carpeta_salida]} ∪ carpetas st) st).

Implicit Types (r : resultados) (st : estado).

(** A run that returns a summary read a PDF, made sure of the output
    folder, went through all the pages without exception and closed the
    input document. *)
Lemma separar_certificados_ok st st' r :
  separar st = (Ok r, st') →
  ∃ documento st1,
    leer_pdf E ruta_pdf = Some (Pdf documento)
    ∧ bucle 0 documento
        (sin_resultados (length documento) (path_name E ruta_pdf))
        (con_abiertos (HEntrada ruta_pdf :: abiertos st) (con_carpeta st))
      = (Ok r, st1)
    ∧ st' = con_abiertos
              (filter (λ h, h ≠ HEntrada ruta_pdf) (abiertos st1)) st1.
Proof.
  unfold separar_certificados.
  destruct (leer_pdf E ruta_pdf) as [[m|documento]|]; try discriminate.
  desplegar_M.
  destruct (bucle _ _ _ _) as [[r1|e] st1] eqn:H; [|discriminate].
  intros [= <- <-]. by exists documento, st1.
Qed.

Lemma separar_certificados_particion_hasta st st' r :
  separar st = (Ok r, st') →
  particion_hasta (total r) r
  ∧ ∃ documento, leer_pdf E ruta_pdf = Some (Pdf documento)
                 ∧ total r = length documento.
Proof.
  intros (documento & st1 & Hpdf & Hrun & _)%separar_certificados_ok.
  apply procesar_paginas_particion in Hrun as [Hp Ht];
    [|apply particion_hasta_vacia].
  simpl in *. rewrite Ht. split; [done|]. by exists documento.
Qed.

(** C10: in the summary a run returns for a document of n pages, total is
    n; every page number from 1 to n is in exactly one of the two lists;
    the page numbers of the two lists taken together have no repetition
    and lie between 1 and n, so the lists are disjoint; their lengths add
    up to total; and each list is in ascending order of page number. *)
Theorem separar_certificados_particion st st' r :
  separar st = (Ok r, st') →
  (∃ documento, leer_pdf E ruta_pdf = Some (Pdf documento)
                ∧ total r = length documento)
  ∧ (∀ p, 1 ≤ p ≤ total r →
          (p ∈ paginas_exitosas r ∧ p ∉ paginas_fallidas r)
          ∨ ((p ∉ paginas_exitosas r) ∧ p ∈ paginas_fallidas r))
  ∧ NoDup (paginas_exitosas r ++ paginas_fallidas r)
  ∧ (∀ p, p ∈ paginas_exitosas r ++ paginas_fallidas r → 1 ≤ p ≤ total r)
  ∧ length (exitosos r) + length (errores r) = total r
  ∧ StronglySorted lt (paginas_exitosas r)
  ∧ StronglySorted lt (paginas_fallidas r).
Proof.
  intros [(Hex & Her & Hperm) Hdoc]%separar_certificados_particion_hasta.
  assert (Hnd : NoDup (paginas_exitosas r ++ paginas_fallidas r)).
  { rewrite Hperm. apply NoDup_seq. }
  split; [done|]. split; [|split; [done|split; [|split; [|done]]]].
  - intros p Hp.
    assert (Hin : p ∈ paginas_exitosas r ++ paginas_fallidas r).
    { rewrite Hperm. apply elem_of_seq. lia. }
    apply NoDup_app in Hnd as (_ & Hdis & _).
    apply elem_of_app in Hin as [Hin|Hin].
    + left. split; [done|]. by apply Hdis.
    + right. split; [|done]. intros Hin'. by apply (Hdis p).
  - intros p Hin. rewrite Hperm in Hin. apply elem_of_seq in Hin. lia.
  - apply Permutation_length in Hperm.
    rewrite length_app, length_seq in Hperm.
    unfold paginas_exitosas, paginas_fallidas in Hperm.
    by rewrite !length_fmap in Hperm.
Qed.

(** What a whole run does to the folder: the pages noted as successes were
    written under pairwise distinct names [nombres], a failed [save] may
    have left a file under further names [restos], at most one for each
    error; all these are names the loop of lines 273-281 forms, that the
    folder did not hold, and the folder holds them and what it held at the
    start. *)
Lemma separar_certificados_salida st st' r :
  separar st = (Ok r, st') →
  ∃ nombres restos,
    archivo <$> exitosos r
    = ruta_en E (carpeta_de E carpeta_salida) <$> nombres
    ∧ length restos ≤ length (errores r)
    ∧ NoDup (nombres ++ restos)
    ∧ (∀ a, a ∈ nombres ++ restos →
         nombre_de_salida prefijo sufijo a ∧ a ∉ salida st)
    ∧ salida st' = list_to_set (nombres ++ restos) ∪ salida st.
Proof.
  intros (documento & st1 & _ & Hrun & ->)%separar_certificados_ok.
  apply (procesar_paginas_invariante E ruta_pdf (carpeta_de E carpeta_salida)
           lista_nombres (patrones_efectivos E patrones) prefijo sufijo
           (λ _ r1 st1,
              ∃ nombres restos,
                archivo <$> exitosos r1
                = ruta_en E (carpeta_de E carpeta_salida) <$> nombres
                ∧ length restos ≤ length (errores r1)
                ∧ NoDup (nombres ++ restos)
                ∧ (∀ a, a ∈ nombres ++ restos →
                        nombre_de_salida prefijo sufijo a ∧ a ∉ salida st)
                ∧ salida st1 = list_to_set (nombres ++ restos) ∪ salida st))
    in Hrun; [done| |].
  - clear. intros i pagina r0 st0 r1 st1
      (nombres & restos & Harch & Hlen & Hnd & Hnew & Hfs) H.
    apply procesar_pagina_casos in H
      as (n & o & a & _ & Hlibre & Hcasos).
    pose proof (nombre_de_salida_libre _ _ _ _ _ _ Hlibre) as Hpdf.
    apply nombre_libre_correcto in Hlibre as (_ & Hno & _).
    rewrite Hfs in Hno.
    apply not_elem_of_union in Hno as [Hl1 Hl2].
    rewrite elem_of_list_to_set in Hl1.
    assert (Hnd' : NoDup (a :: nombres ++ restos)) by by constructor.
    assert (Hnew' : ∀ x, x ∈ a :: nombres ++ restos →
                         nombre_de_salida prefijo sufijo x ∧ x ∉ salida st).
    { intros x [->|Hx]%elem_of_cons; [done|by apply Hnew]. }
    assert (Hset : {[a]} ∪ salida st0
                   = list_to_set (a :: nombres ++ restos) ∪ salida st).
    { rewrite Hfs. cbn [list_to_set]. by rewrite (assoc_L (∪)). }
    destruct Hcasos as [(_ & -> & Hst)|(_ & [m ->] & [Hst|Hst])].
    + exists (nombres ++ [a]), restos.
      cbn [anotar_exito exitosos errores]. rewrite fmap_app.
      change (archivo <$> [_])
        with [ruta_en E (carpeta_de E carpeta_salida) a].
      rewrite Harch, fmap_app.
      assert (Hperm : (nombres ++ [a]) ++ restos ≡ₚ a :: nombres ++ restos).
      { rewrite <- (assoc_L (++)). simpl. by rewrite <- Permutation_middle. }
      split; [done|]. split; [done|]. split; [by rewrite Hperm|].
      split.
      * intros x Hx. rewrite Hperm in Hx. by apply Hnew'.
      * rewrite Hst, Hset. f_equal. apply set_eq. intros x.
        by rewrite !elem_of_list_to_set, Hperm.
    + exists nombres, restos. cbn [anotar_error exitosos errores].
      rewrite length_app. simpl.
      split; [done|]. split; [lia|]. split; [done|]. split; [done|].
      by rewrite Hst.
    + exists nombres, (restos ++ [a]). cbn [anotar_error exitosos errores].
      rewrite !length_app. simpl.
      assert (Hperm : nombres ++ restos ++ [a] ≡ₚ a :: nombres ++ restos).
      { rewrite (assoc_L (++)). by rewrite <- Permutation_cons_append. }
      split; [done|]. split; [lia|]. split; [by rewrite Hperm|].
      split.
      * intros x Hx. rewrite Hperm in Hx. by apply Hnew'.
      * rewrite Hst, Hset. f_equal. apply set_eq. intros x.
        by rewrite !elem_of_list_to_set, Hperm.
  - exists [], []. simpl. split; [done|]. split; [lia|].
    split; [constructor|]. split; [by intros a ?%elem_of_nil|].
    by rewrite (left_id_L ∅ (∪)).
Qed.

(** A run that returns its summary has closed the input document. *)
Lemma separar_certificados_cierra_entrada st st' r :
  separar st = (Ok r, st') → HEntrada ruta_pdf ∉ abiertos st'.
Proof.
  intros (documento & st1 & _ & _ & ->)%separar_certificados_ok.
  cbn [con_abiertos abiertos]. intros [Hne _]%list_elem_of_filter. done.
Qed.

(** C9: two runs on the same document with the same list, patterns, prefix
    and suffix, each into an output folder holding no PDF, return the same
    thing: the same summary (names, sources, files, successes and errors
    page by page) or the same exception. *)
Theorem separar_certificados_idempotente (st1 st2 : estado) :
  purgada (salida st1) → purgada (salida st2) →
  (separar st1).1 = (separar st2).1.
Proof.
  intros H1 H2. unfold separar_certificados.
  destruct (leer_pdf E ruta_pdf) as [[m|documento]|]; try done.
  desplegar_M.
  pose proof (procesar_paginas_mismos_pdf E ruta_pdf
                (carpeta_de E carpeta_salida) lista_nombres
                (patrones_efectivos E patrones) prefijo sufijo documento 0
                (sin_resultados (length documento) (path_name E ruta_pdf))
                (con_abiertos (HEntrada ruta_pdf :: abiertos st1)
                   (con_carpeta st1))
                (con_abiertos (HEntrada ruta_pdf :: abiertos st2)
                   (con_carpeta st2))
                (purgadas_mismos_pdf _ _ H1 H2)) as [Hr _].
  destruct (bucle _ _ _ (con_abiertos _ (con_carpetas _ st1))) as [x1 st1'].
  destruct (bucle _ _ _ (con_abiertos _ (con_carpetas _ st2))) as [x2 st2'].
  simpl in Hr. subst x2. by destruct x1.
Qed.

End Separar.

(** ** Runs of the example *)

Lemma procesar_pagina_sin_sobrescribir_ejemplo :
  ∃ nombre origen a,
    elegir_nombre entorno_ejemplo (Some [lit "John_Doe"]) dos_marcadores 0
      (lit "Se otorga a: John Doe") = Ok (nombre, origen)
    ∧ (a ∉ salida estado_john_doe)
    ∧ (let limpio := limpiar_nombre_archivo nombre in
       (nombre_base [] limpio [] ∉ salida estado_john_doe →
        a = nombre_base [] limpio [])
       ∧ (nombre_base [] limpio [] ∈ salida estado_john_doe →
          ∃ n, 1 ≤ n
               ∧ a = nombre_numerado [] limpio [] n
               ∧ ∀ m, (1 ≤ m < n) →
                      nombre_numerado [] limpio [] m
                      ∈ salida estado_john_doe))
    ∧ salida estado_john_doe ⊆ salida corrida_john_doe.2
    ∧ salida corrida_john_doe.2 ⊆ {[a]} ∪ salida estado_john_doe
    ∧ ((escribir entorno_ejemplo (lit "certificados.pdf") 0 a = Escrito
        ∧ valor (sin_resultados 1 []) corrida_john_doe
          = anotar_exito (sin_resultados 1 [])
              {| pagina := 0 + 1; nombre := nombre;
                 archivo := ruta_en entorno_ejemplo (lit "salida") a;
                 origen := origen |}
        ∧ salida corrida_john_doe.2 = {[a]} ∪ salida estado_john_doe)
       ∨ (escribir entorno_ejemplo (lit "certificados.pdf") 0 a ≠ Escrito
          ∧ ∃ mensaje,
              valor (sin_resultados 1 []) corrida_john_doe
              = anotar_error (sin_resultados 1 [])
                  {| pagina_fallida := 0 + 1; error := mensaje |})).
Proof.
  apply (procesar_pagina_sin_sobrescribir entorno_ejemplo
           (lit "certificados.pdf") (lit "salida") (Some [lit "John_Doe"])
           dos_marcadores [] [] 0 (lit "Se otorga a: John Doe")
           (sin_resultados 1 [])
           (valor (sin_resultados 1 []) corrida_john_doe)
           estado_john_doe corrida_john_doe.2).
  by vm_compute.
Defined.

(** With John_Doe.pdf in the folder, the page of John_Doe is written as
    John_Doe_1.pdf, and the folder then holds both. *)
Lemma john_doe_colision :
  archivo <$> exitosos (valor (sin_resultados 1 []) corrida_john_doe)
  = [lit "salida/John_Doe_1.pdf"]
  ∧ salida corrida_john_doe.2
    = {[lit "John_Doe_1.pdf"; lit "John_Doe.pdf"]}.
Proof. split; by vm_compute. Qed.

(** Three pages of one name in an empty folder: the name, then the
    counters 1 and 2. *)
Lemma tres_paginas_mismo_nombre :
  archivo <$> exitosos
    (valor (sin_resultados 0 [])
       (separar_certificados entorno_ejemplo (lit "certificados.pdf")
          (Some (lit "diplomas"))
          (Some [lit "Ana Ruiz"; lit "Ana: Ruiz"; lit " Ana  Ruiz "]) None
          (lit "2024 ") (lit " (copia)") (estado_inicial ∅)))
  = [ lit "diplomas/2024 Ana Ruiz (copia).pdf";
      lit "diplomas/2024 Ana Ruiz_1 (copia).pdf";
      lit "diplomas/2024 Ana Ruiz_2 (copia).pdf" ].
Proof. by vm_compute. Qed.

Lemma separar_certificados_particion_ejemplo :
  let r := valor (sin_resultados 0 []) corrida_ejemplo in
  NoDup (paginas_exitosas r ++ paginas_fallidas r)
  ∧ length (exitosos r) + length (errores r) = total r
  ∧ total r = 3.
Proof.
  intros r.
  destruct (separar_certificados_particion entorno_ejemplo
              (lit "certificados.pdf") None (Some [lit "Bob Smith"]) None
              [] []
              (estado_inicial ∅) corrida_ejemplo.2 r)
    as (_ & _ & Hnd & _ & Hlen & _); [by vm_compute|].
  split; [done|]. split; [done|]. by vm_compute.
Defined.

Lemma separar_certificados_idempotente_ejemplo :
  corrida_ejemplo.1
  = (separar_certificados entorno_ejemplo (lit "certificados.pdf") None
       (Some [lit "Bob Smith"]) None [] [] estado_purgado).1.
Proof.
  apply (separar_certificados_idempotente entorno_ejemplo
           (lit "certificados.pdf") None (Some [lit "Bob Smith"]) None
           [] []
           (estado_inicial ∅) estado_purgado).
  - apply (bool_decide_unpack _). by vm_compute.
  - apply (bool_decide_unpack _). by vm_compute.
Defined.

(** C8 fails on the code: with a full disk [save] raises on page 1, and the
    round ends with the output document of that page still open; at the end
    of the run the three output documents are open, the input document
    alone is closed. *)
Theorem separar_certificados_deja_abiertos :
  abiertos
    (procesar_pagina entorno_disco_lleno (lit "certificados.pdf")
       (lit "salida") None
       dos_marcadores [] [] 0 (lit "Se otorga a: Jane Doe")
       (sin_resultados 3 []) (estado_inicial ∅)).2
  = [HSalida (lit "certificados.pdf") 0]
  ∧ abiertos
      (separar_certificados entorno_disco_lleno (lit "certificados.pdf")
         None None None [] [] (estado_inicial ∅)).2
    = [ HSalida (lit "certificados.pdf") 2;
        HSalida (lit "certificados.pdf") 1;
        HSalida (lit "certificados.pdf") 0 ]
  ∧ paginas_fallidas
      (valor (sin_resultados 0 [])
         (separar_certificados entorno_disco_lleno (lit "certificados.pdf")
            None None None [] [] (estado_inicial ∅)))
    = [1; 2; 3].
Proof. repeat split; by vm_compute. Qed.
(** ** The scenario of three pages *)

(** C6: a document of three pages where the extraction gives Jane Doe on
    page 1, nothing on page 2 and Ana Ruiz on page 3, split with the list
    of the single name Bob Smith, every write succeeding: the run returns a
    summary with the successes page 1 named Bob Smith from the list, page 2
    named certificado_002 as generated and page 3 named Ana Ruiz as
    extracted, and no error: three successes out of a total of three. *)
Theorem separar_certificados_tres_paginas (E : entorno) (ruta_pdf : str)
    (carpeta_salida : option str) (p1 p2 p3 : str)
    (patrones : option (list str)) (prefijo sufijo : str) (st : estado) :
  leer_pdf E ruta_pdf = Some (Pdf [p1; p2; p3]) →
  extraer_nombre_de_pagina E p1 patrones = Ok (Some (lit "Jane Doe")) →
  extraer_nombre_de_pagina E p2 patrones = Ok None →
  extraer_nombre_de_pagina E p3 patrones = Ok (Some (lit "Ana Ruiz")) →
  (∀ i nombre_archivo, escribir E ruta_pdf i nombre_archivo = Escrito) →
  ∃ r st',
    separar_certificados E ruta_pdf carpeta_salida (Some [lit "Bob Smith"])
      patrones prefijo sufijo st = (Ok r, st')
    ∧ resumen_exito <$> exitosos r
      = [ (1, lit "Bob Smith", DeLista);
          (2, lit "certificado_002", Generado);
          (3, lit "Ana Ruiz", Extraido) ]
    ∧ errores r = []
    ∧ length (exitosos r) = 3
    ∧ total r = 3.
Proof.
  intros Hpdf _ H2 H3 Hw.
  set (pats := patrones_efectivos E patrones).
  assert (Hn1 : elegir_nombre E (Some [lit "Bob Smith"]) pats 0 p1
                = Ok (lit "Bob Smith", DeLista)) by reflexivity.
  assert (Hn2 : elegir_nombre E (Some [lit "Bob Smith"]) pats 1 p2
                = Ok (lit "certificado_002", Generado)).
  { unfold elegir_nombre. cbn [lit length Nat.ltb Nat.leb fmap list_fmap].
    change (extraer_nombre_de_pagina E p2 (Some pats))
      with (extraer_nombre_de_pagina E p2 patrones).
    rewrite H2. reflexivity. }
  assert (Hn3 : elegir_nombre E (Some [lit "Bob Smith"]) pats 2 p3
                = Ok (lit "Ana Ruiz", Extraido)).
  { unfold elegir_nombre. cbn [lit length Nat.ltb Nat.leb fmap list_fmap].
    change (extraer_nombre_de_pagina E p3 (Some pats))
      with (extraer_nombre_de_pagina E p3 patrones).
    rewrite H3. reflexivity. }
  assert (Hrech : ∀ i n, rechazo E ruta_pdf i n = None).
  { intros i n. unfold rechazo. by rewrite Hw. }
  unfold separar_certificados. rewrite Hpdf. fold pats.
  unfold mbind, M_bind, mkdir, abrir, cerrar, mret, M_ret. cbn beta iota.
  rewrite procesar_paginas_cons, procesar_pagina_eq, Hn1.
  edestruct nombre_libre_termina as [a1 ->]; [apply Hrech|].
  rewrite escribir_pagina_eq, Hw.
  rewrite procesar_paginas_cons, procesar_pagina_eq, Hn2.
  edestruct nombre_libre_termina as [a2 ->]; [apply Hrech|].
  rewrite escribir_pagina_eq, Hw.
  rewrite procesar_paginas_cons, procesar_pagina_eq, Hn3.
  edestruct nombre_libre_termina as [a3 ->]; [apply Hrech|].
  rewrite escribir_pagina_eq, Hw.
  cbn [procesar_paginas mret M_ret].
  eexists _, _. split; [reflexivity|]. by repeat split.
Qed.

Lemma separar_certificados_tres_paginas_ejemplo :
  ∃ r st',
    separar_certificados entorno_ejemplo (lit "certificados.pdf") None
      (Some [lit "Bob Smith"]) None [] [] (estado_inicial ∅) = (Ok r, st')
    ∧ resumen_exito <$> exitosos r
      = [ (1, lit "Bob Smith", DeLista);
          (2, lit "certificado_002", Generado);
          (3, lit "Ana Ruiz", Extraido) ]
    ∧ errores r = []
    ∧ length (exitosos r) = 3
    ∧ total r = 3.
Proof.
  apply (separar_certificados_tres_paginas entorno_ejemplo
           (lit "certificados.pdf") None (lit "Se otorga a: Jane Doe")
           (lit "Constancia de participacion")
           (lit "Se certifica a: Ana Ruiz") None [] [] (estado_inicial ∅)).
  - reflexivity.
  - by vm_compute.
  - by vm_compute.
  - by vm_compute.
  - reflexivity.
Defined.
(** ** The exit status *)

(** On a single file the exit status is 0 exactly when the run returns a
    summary without errors. *)
Lemma procesar_un_archivo (E : entorno) (args : argumentos)
    (lista_nombres : option (list str)) (ruta : str) (st : estado) :
  dado (arg_archivo args) = Some ruta →
  (procesar E args lista_nombres st).1
  = Ok (match (separar_certificados E ruta (arg_salida args) lista_nombres
                 None (arg_prefijo args) (arg_sufijo args) st).1 with
        | Ok r => match errores r with [] => 0 | _ :: _ => 1 end
        | Raise _ => 1
        end).
Proof.
  intros Hd. unfold procesar, try_except. rewrite Hd.
  unfold mbind, M_bind.
  destruct (separar_certificados _ _ _ _ _ _ _ st) as [[r|e] st1];
    [|reflexivity].
  cbn [fst]. destruct (errores r); reflexivity.
Qed.

(** On the input folder the exit status is 0 exactly when the list of
    summaries is not empty; the errors inside the summaries are not
    looked at. *)
Lemma procesar_la_carpeta (E : entorno) (args : argumentos)
    (lista_nombres : option (list str)) (st : estado) :
  dado (arg_archivo args) = None →
  (procesar E args lista_nombres st).1
  = Ok (match (procesar_carpeta_entrada E lista_nombres (arg_prefijo args)
                 (arg_sufijo args) (negb (arg_no_limpiar args))
                 (negb (arg_no_borrar_entrada args)) st).1 with
        | Ok (_ :: _) => 0
        | _ => 1
        end).
Proof.
  intros Hd. unfold procesar, try_except. rewrite Hd.
  unfold mbind, M_bind.
  destruct (procesar_carpeta_entrada _ _ _ _ _ _ st) as [[[|r rs]|e] st1];
    reflexivity.
Qed.

(** C5 fails on the code: run on the input folder with a full disk, the
    script notes an error for each of the three pages of the only PDF and
    still exits with status 0; run on that file alone it exits with 1. *)
Theorem main_carpeta_ignora_errores :
  (main entorno_disco_lleno args_carpeta (estado_inicial ∅)).1 = Ok 0
  ∧ paginas_fallidas
      <$> valor []
            (procesar_carpeta_entrada entorno_disco_lleno None [] []
               true true (estado_inicial ∅))
    = [[1; 2; 3]]
  ∧ (main entorno_disco_lleno args_archivo (estado_inicial ∅)).1 = Ok 1.
Proof. repeat split; by vm_compute. Qed.
(** ** A list of names that cannot be loaded *)




(** What [main] does once the list is read, with the state it leaves. *)
Lemma procesar_eq (E : entorno) (args : argumentos)
    (lista_nombres : option (list str)) (st : estado) :
  procesar E args lista_nombres st
  = match dado (arg_archivo args) with
    | Some ruta =>
        let x := separar_certificados E ruta (arg_salida args) lista_nombres
                   None (arg_prefijo args) (arg_sufijo args) st in
        (Ok (match x.1 with
             | Ok r => match errores r with [] => 0 | _ :: _ => 1 end
             | Raise _ => 1
             end), x.2)
    | None =>
        let x := procesar_carpeta_entrada E lista_nombres (arg_prefijo args)
                   (arg_sufijo args) (negb (arg_no_limpiar args))
                   (negb (arg_no_borrar_entrada args)) st in
        (Ok (match x.1 with
             | Ok (_ :: _) => 0
             | _ => 1
             end), x.2)
    end.
Proof.
  unfold procesar, try_except, mbind, M_bind.
  destruct (dado (arg_archivo args)) as [ruta|]; cbn zeta.
  - destruct (separar_certificados _ _ _ _ _ _ _ st) as [[r|e] st1];
      [|reflexivity].
    cbn [fst snd]. destruct (errores r); reflexivity.
  - destruct (procesar_carpeta_entrada _ _ _ _ _ _ st)
      as [[[|r rs]|e] st1]; reflexivity.
Qed.









(** * Further properties of the code *)

(** ** The sanitised name, once more *)

Section MasCadenas.

Implicit Types (s : str).

Lemma sub_espacios_desde_solo (dentro : bool) s :
  solo_espacios (sub_espacios_desde dentro s).
Proof.
  revert dentro. induction s as [|c s IH]; intros dentro; simpl;
    [constructor|].
  destruct (isspace c) eqn:Hc.
  - destruct dentro; [apply IH|]. constructor; [done|apply IH].
  - constructor; [congruence|apply IH].
Qed.

Lemma nombre_depurado_solo (nombre : str) :
  solo_espacios (nombre_depurado nombre).
Proof. apply Forall_strip, sub_espacios_desde_solo. Qed.

Lemma quitar_reservados_id s : sin_reservados s → quitar_reservados s = s.
Proof.
  induction 1 as [|c s Hc _ IH]; [done|].
  unfold quitar_reservados in *. rewrite filter_cons_True by done.
  by rewrite IH.
Qed.

Lemma sub_espacios_desde_id (dentro : bool) s :
  solo_espacios s → vecinos isspace s = false →
  (dentro = true → empieza_en_blanco s = false) →
  sub_espacios_desde dentro s = s.
Proof.
  intros Hsolo. revert dentro.
  induction Hsolo as [|c s Hc _ IH]; intros dentro Hvec Hdentro; [done|].
  assert (Hvec' : vecinos isspace s = false).
  { destruct s as [|b s]; [done|]. simpl in Hvec.
    by apply orb_false_iff in Hvec as [_ ?]. }
  simpl. destruct (isspace c) eqn:Hesp.
  - destruct dentro; [simpl in Hdentro; rewrite Hesp in Hdentro; by discriminate Hdentro|].
    rewrite (Hc eq_refl). f_equal. apply IH; [done|].
    intros _. destruct s as [|b s]; [done|]. simpl in Hvec |- *.
    rewrite Hesp in Hvec. by apply orb_false_iff in Hvec as [? _].
  - f_equal. apply IH; [done|]. discriminate.
Qed.

Lemma strip_id s :
  empieza_en_blanco s = false → acaba_en_blanco s = false → strip s = s.
Proof.
  intros Hemp Haca. unfold strip, rstrip.
  assert (Hl : ∀ t : str, empieza_en_blanco t = false → lstrip t = t).
  { intros [|c t] Ht; [done|]. simpl in *. by rewrite Ht. }
  rewrite (Hl s Hemp), (Hl (reverse s) Haca). apply reverse_involutive.
Qed.

Lemma length_sub_espacios_desde (dentro : bool) s :
  length (sub_espacios_desde dentro s) ≤ length s.
Proof.
  revert dentro. induction s as [|c s IH]; intros dentro; simpl; [done|].
  pose proof (IH true). pose proof (IH false).
  destruct (isspace c); [destruct dentro|]; simpl; lia.
Qed.

Lemma length_strip s : length (strip s) ≤ length s.
Proof.
  destruct (strip_infijo s) as (k1 & k2 & Hs). rewrite Hs at 2.
  rewrite !length_app. lia.
Qed.

Lemma length_nombre_depurado (nombre : str) :
  length (nombre_depurado nombre) ≤ length nombre.
Proof.
  unfold nombre_depurado, sub_espacios.
  pose proof (length_strip
    (sub_espacios_desde false (quitar_reservados nombre))).
  pose proof (length_sub_espacios_desde false (quitar_reservados nombre)).
  pose proof (length_filter (λ c, reservado c = false) nombre).
  unfold sub_espacios, quitar_reservados in *. lia.
Qed.

(** A cleaned name is left as it is by lines 86-90. *)
Lemma nombre_depurado_id (nombre : str) :
  nombre_depurado (nombre_depurado nombre) = nombre_depurado nombre.
Proof.
  unfold nombre_depurado at 1.
  rewrite quitar_reservados_id by apply nombre_depurado_sin.
  unfold sub_espacios. rewrite sub_espacios_desde_id.
  - apply strip_id; [apply strip_empieza|apply strip_acaba].
  - apply nombre_depurado_solo.
  - apply nombre_depurado_vecinos.
  - discriminate.
Qed.

Lemma limpiar_nombre_archivo_sin_corte (nombre : str) :
  length (nombre_depurado nombre) ≤ 100 →
  limpiar_nombre_archivo (limpiar_nombre_archivo nombre)
  = limpiar_nombre_archivo nombre.
Proof.
  intros Hlen. rewrite (limpiar_nombre_archivo_eq nombre).
  destruct (nombre_depurado nombre) as [|c s] eqn:Hd; [by vm_compute|].
  rewrite take_ge by done. rewrite <- Hd.
  rewrite limpiar_nombre_archivo_eq, nombre_depurado_id, Hd.
  by rewrite take_ge.
Qed.

End MasCadenas.

(** The sanitised name is never empty and its only white space is the plain
    space: tabs, line feeds and the other Unicode blanks are gone. *)
Theorem limpiar_nombre_archivo_normaliza (nombre : str) :
  limpiar_nombre_archivo nombre ≠ []
  ∧ solo_espacios (limpiar_nombre_archivo nombre).
Proof.
  rewrite limpiar_nombre_archivo_eq.
  pose proof (nombre_depurado_solo nombre) as Hsolo.
  destruct (nombre_depurado nombre) as [|c s]; split.
  - by vm_compute.
  - apply Forall_forall. intros x Hx. vm_compute in Hx.
    repeat (apply elem_of_cons in Hx as [->|Hx]; [by vm_compute|]).
    by apply elem_of_nil in Hx.
  - done.
  - by apply Forall_take.
Qed.

(** Sanitising twice gives a name that sanitising leaves alone; and once is
    enough whenever the cleaned name has at most 100 characters, so that no
    cut took place. *)
Theorem limpiar_nombre_archivo_idempotente (nombre : str) :
  limpiar_nombre_archivo
    (limpiar_nombre_archivo (limpiar_nombre_archivo nombre))
  = limpiar_nombre_archivo (limpiar_nombre_archivo nombre)
  ∧ (length (nombre_depurado nombre) ≤ 100 →
     limpiar_nombre_archivo (limpiar_nombre_archivo nombre)
     = limpiar_nombre_archivo nombre).
Proof.
  split; [|apply limpiar_nombre_archivo_sin_corte].
  apply limpiar_nombre_archivo_sin_corte.
  pose proof (length_nombre_depurado (limpiar_nombre_archivo nombre)).
  assert (length (limpiar_nombre_archivo nombre) ≤ 100); [|lia].
  rewrite limpiar_nombre_archivo_eq.
  destruct (nombre_depurado nombre); [vm_compute; lia|].
  rewrite length_take. lia.
Qed.

Lemma limpiar_nombre_archivo_idempotente_ejemplo :
  limpiar_nombre_archivo (limpiar_nombre_archivo (lit " Ana:  Ruiz "))
  = limpiar_nombre_archivo (lit " Ana:  Ruiz ").
Proof.
  apply (limpiar_nombre_archivo_idempotente (lit " Ana:  Ruiz ")).
  vm_compute. lia.
Defined.

(** ** The extraction, once more *)

Lemma nombre_de_grupo_forma (g : str) :
  empieza_en_blanco (nombre_de_grupo g) = false
  ∧ acaba_en_blanco (nombre_de_grupo g) = false
  ∧ vecinos isspace (nombre_de_grupo g) = false
  ∧ solo_espacios (nombre_de_grupo g)
  ∧ 10%N ∉ nombre_de_grupo g.
Proof.
  rewrite nombre_de_grupo_eq.
  split; [apply strip_empieza|]. split; [apply strip_acaba|].
  split; [apply vecinos_strip, sub_espacios_vecinos|].
  split; [apply Forall_strip, sub_espacios_desde_solo|].
  pose proof (Forall_strip (λ c, c ≠ 10%N) _
                (sub_espacios_desde_sin_salto false (strip g))) as H.
  intros Hin. by eapply Forall_forall in H.
Qed.

(** A name the extraction returns is longer than two characters, has no
    white space at either end, no two white space characters in a row,
    no white space other than the plain space and so no line feed; it is
    what lines 154-156 make of group 1 of one of the patterns in force. *)
Theorem extraer_nombre_de_pagina_forma (E : entorno) (pagina : str)
    (patrones : option (list str)) (n : str) :
  extraer_nombre_de_pagina E pagina patrones = Ok (Some n) →
  2 < length n
  ∧ empieza_en_blanco n = false
  ∧ acaba_en_blanco n = false
  ∧ vecinos isspace n = false
  ∧ solo_espacios n
  ∧ (10%N ∉ n)
  ∧ ∃ patron g,
      patron ∈ patrones_efectivos E patrones
      ∧ re_search E patron pagina = Match (Grupo g)
      ∧ n = strip (sub_espacios (strip g)).
Proof.
  unfold extraer_nombre_de_pagina.
  intros (patron & g & Hin & Hre & Hn & Hlen)%probar_patrones_nombre.
  destruct (nombre_de_grupo_forma g) as (H1 & H2 & H3 & H4 & H5).
  rewrite nombre_de_grupo_eq, <- Hn in *.
  repeat split; try done. by exists patron, g.
Qed.

Lemma extraer_nombre_de_pagina_forma_ejemplo :
  2 < length (lit "Ana Ruiz")
  ∧ empieza_en_blanco (lit "Ana Ruiz") = false
  ∧ acaba_en_blanco (lit "Ana Ruiz") = false
  ∧ vecinos isspace (lit "Ana Ruiz") = false
  ∧ solo_espacios (lit "Ana Ruiz")
  ∧ (10%N ∉ lit "Ana Ruiz")
  ∧ ∃ patron g,
      patron ∈ patrones_efectivos entorno_ejemplo None
      ∧ re_search entorno_ejemplo patron (lit "Se certifica a: Ana Ruiz")
        = Match (Grupo g)
      ∧ lit "Ana Ruiz" = strip (sub_espacios (strip g)).
Proof.
  apply (extraer_nombre_de_pagina_forma entorno_ejemplo
           (lit "Se certifica a: Ana Ruiz") None (lit "Ana Ruiz")).
  by vm_compute.
Defined.

(** Patterns that [re] refuses and patterns that do not match the page have
    no effect wherever they stand in the list: the result is the one of
    the list without them. *)
Theorem probar_patrones_solo_coincidentes (E : entorno) (texto : str)
    (patrones : list str) :
  probar_patrones E texto patrones
  = probar_patrones E texto
      (filter (λ patron, coincide E texto patron = true) patrones).
Proof.
  induction patrones as [|patron resto IH]; [done|].
  unfold coincide at 1. simpl.
  destruct (re_search E patron texto) as [| |g] eqn:Hre.
  - rewrite filter_cons_False; [done|]. unfold coincide. by rewrite Hre.
  - rewrite filter_cons_False; [done|]. unfold coincide. by rewrite Hre.
  - rewrite filter_cons_True by (unfold coincide; by rewrite Hre).
    simpl. rewrite Hre. destruct g as [| |g]; try done.
    by rewrite IH.
Qed.

(** The first pattern that gives a usable name wins: when the patterns
    before it give none, without raising, the extraction returns its name
    whatever the patterns after it. *)
Theorem probar_patrones_primero (E : entorno) (texto : str)
    (antes despues : list str) (patron g : str) :
  Forall (sin_nombre_util E texto) antes →
  re_search E patron texto = Match (Grupo g) →
  2 < length (nombre_de_grupo g) →
  probar_patrones E texto (antes ++ patron :: despues)
  = Ok (Some (nombre_de_grupo g)).
Proof.
  intros Hantes Hre Hlen.
  induction Hantes as [|q antes Hq _ IH]; simpl.
  - rewrite Hre.
    rewrite bool_decide_eq_false_2 by (intros Hnil; rewrite Hnil in Hlen;
      simpl in Hlen; lia).
    apply Nat.ltb_lt in Hlen. by rewrite Hlen.
  - unfold sin_nombre_util in Hq.
    destruct (re_search E q texto) as [| |[| |g']]; try done.
    assert (Hcorto : (2 <? length (nombre_de_grupo g')) = false)
      by (apply Nat.ltb_ge; lia).
    by rewrite Hcorto, andb_false_r.
Qed.

Lemma probar_patrones_primero_ejemplo :
  probar_patrones entorno_ejemplo (lit "Se certifica a: Ana Ruiz")
    ([lit "otorga a: "] ++ lit "certifica a: " :: [lit "a: "])
  = Ok (Some (nombre_de_grupo (lit "Ana Ruiz"))).
Proof.
  apply (probar_patrones_primero entorno_ejemplo
           (lit "Se certifica a: Ana Ruiz") [lit "otorga a: "]
           [lit "a: "] (lit "certifica a: ") (lit "Ana Ruiz")).
  - repeat constructor.
  - by vm_compute.
  - vm_compute. lia.
Defined.

(** ** The generated names *)

Lemma digitos_ceros (k : nat) (u : Decimal.uint) :
  digitos (ceros k u) = replicate k 48%N ++ digitos u.
Proof. induction k as [|k IH]; simpl; [done|]. by rewrite IH. Qed.

Lemma of_uint_ceros (k : nat) (u : Decimal.uint) :
  Nat.of_uint (ceros k u) = Nat.of_uint u.
Proof. induction k as [|k IH]; simpl; [done|]. exact IH. Qed.

Lemma str_de_nat_03_inj (n m : nat) :
  str_de_nat_03 n = str_de_nat_03 m → n = m.
Proof.
  unfold str_de_nat_03, str_de_nat. rewrite <- !digitos_ceros.
  intros H%digitos_inj. apply (f_equal Nat.of_uint) in H.
  by rewrite !of_uint_ceros, !Unsigned.of_to in H.
Qed.

(** The generated name tells the page: two pages never get the same one.
    It always has at least three digits, exactly three up to page 999, and
    up to that page the sanitiser leaves it as it is. *)
Theorem nombre_generado_por_pagina (n m : nat) :
  (lit "certificado_" ++ str_de_nat_03 n
   = lit "certificado_" ++ str_de_nat_03 m → n = m)
  ∧ 3 ≤ length (str_de_nat_03 n)
  ∧ (n < 1000 →
     length (str_de_nat_03 n) = 3
     ∧ limpiar_nombre_archivo (lit "certificado_" ++ str_de_nat_03 n)
       = lit "certificado_" ++ str_de_nat_03 n).
Proof.
  split; [|split].
  - intros H%app_inv_head. by apply str_de_nat_03_inj.
  - unfold str_de_nat_03. rewrite length_app, length_replicate. lia.
  - intros Hn.
    assert (Htodos :
      forallb (λ k, bool_decide
                 (length (str_de_nat_03 k) = 3
                  ∧ limpiar_nombre_archivo (lit "certificado_" ++ str_de_nat_03 k)
                    = lit "certificado_" ++ str_de_nat_03 k))
        (seq 0 1000) = true) by (by vm_compute).
    rewrite forallb_forall in Htodos.
    apply (bool_decide_unpack _). apply Is_true_true, Htodos, in_seq. lia.
Qed.

Lemma nombre_generado_por_pagina_ejemplo :
  length (str_de_nat_03 42) = 3
  ∧ limpiar_nombre_archivo (lit "certificado_" ++ str_de_nat_03 42)
    = lit "certificado_" ++ str_de_nat_03 42.
Proof. apply (nombre_generado_por_pagina 42 0). lia. Defined.

(** ** The choice of the name, once more *)

(** Past the end of the list the name is chosen exactly as without a
    list: a list shorter than the document is no error. *)
Theorem elegir_nombre_fuera_de_lista (E : entorno) (lista patrones : list str)
    (i : nat) (pagina : str) :
  length lista ≤ i →
  elegir_nombre E (Some lista) patrones i pagina
  = elegir_nombre E None patrones i pagina.
Proof.
  intros Hlen. unfold elegir_nombre.
  destruct lista as [|n0 lista]; [done|].
  by destruct (Nat.ltb_spec i (length (n0 :: lista))) as [?|_]; [lia|].
Qed.

Lemma elegir_nombre_fuera_de_lista_ejemplo :
  elegir_nombre entorno_ejemplo (Some [lit "Bob Smith"]) dos_marcadores 2
    (lit "Se certifica a: Ana Ruiz")
  = elegir_nombre entorno_ejemplo None dos_marcadores 2
      (lit "Se certifica a: Ana Ruiz").
Proof.
  apply (elegir_nombre_fuera_de_lista entorno_ejemplo [lit "Bob Smith"]
           dos_marcadores 2 (lit "Se certifica a: Ana Ruiz")).
  simpl. lia.
Defined.

(** The source tag of a name is true to its source: a name tagged as of the
    list is the entry of the list at the index of the page; a name tagged
    as extracted is what the extraction returns on the page, which the list
    does not reach; a name tagged as generated is certificado_ followed by
    the page number on three digits.  The name is never empty. *)
Theorem elegir_nombre_origen (E : entorno) (lista_nombres : option (list str))
    (patrones : list str) (i : nat) (pagina n : str) (o : origen_t) :
  elegir_nombre E lista_nombres patrones i pagina = Ok (n, o) →
  n ≠ []
  ∧ match o with
    | DeLista => ∃ lista, lista_nombres = Some lista ∧ lista !! i = Some n
    | Extraido =>
        extraer_nombre_de_pagina E pagina (Some patrones) = Ok (Some n)
        ∧ ∀ lista, lista_nombres = Some lista → length lista ≤ i
    | Generado => n = lit "certificado_" ++ str_de_nat_03 (i + 1)
    end.
Proof.
  unfold elegir_nombre.
  destruct (extraer_nombre_de_pagina E pagina (Some patrones))
    as [[[|c s]|]|e] eqn:Hx;
    (destruct lista_nombres as [[|n0 lista]|];
     [ | destruct (Nat.ltb_spec i (length (n0 :: lista))) as [Hlt|Hge];
         [destruct ((n0 :: lista) !! i) as [[|c' s']|] eqn:Hi|] | ]);
    intros [= <- <-]; (split; [done|]); try done;
    try (by exists (n0 :: lista));
    (split; [done|]); intros l Hl; simplify_eq; simpl in *; lia.
Qed.

Lemma elegir_nombre_origen_ejemplo :
  lit "Ana Ruiz" ≠ []
  ∧ extraer_nombre_de_pagina entorno_ejemplo (lit "Se certifica a: Ana Ruiz")
      (Some dos_marcadores) = Ok (Some (lit "Ana Ruiz"))
  ∧ ∀ lista, Some [lit "Bob Smith"] = Some lista → length lista ≤ 2.
Proof.
  apply (elegir_nombre_origen entorno_ejemplo (Some [lit "Bob Smith"])
           dos_marcadores 2 (lit "Se certifica a: Ana Ruiz")
           (lit "Ana Ruiz") Extraido).
  by vm_compute.
Defined.

Lemma elegir_nombre_de_lista_cargada_ejemplo :
  elegir_nombre entorno_ejemplo
    (Some (cargar_lista_nombres entorno_ejemplo (lit "nombres.csv")))
    dos_marcadores 0 (lit "Se otorga a: Jane Doe")
  = Ok (lit "Bob Smith", DeLista).
Proof.
  apply (elegir_nombre_de_lista_cargada entorno_ejemplo (lit "nombres.csv")
           dos_marcadores 0 (lit "Se otorga a: Jane Doe") (lit "Bob Smith")).
  by vm_compute.
Defined.

(** ** The loaders *)

(** The names loaded are entries of the first column, in its order and as
    they stand there (they are not trimmed); none is empty, none is nan in
    whatever case, none is white space only. *)
Theorem cargar_lista_nombres_filtrada (E : entorno) (ruta : str) :
  (∀ n, n ∈ cargar_lista_nombres E ruta →
        n ≠ [] ∧ es_nan n = false ∧ strip n ≠ [])
  ∧ (cargar_lista_nombres E ruta = []
     ∨ ∃ columna,
         (read_excel E ruta = Ok columna ∨ read_csv E ruta = Ok columna)
         ∧ cargar_lista_nombres E ruta `sublist_of` columna).
Proof.
  unfold cargar_lista_nombres, cargar_lista_nombres_cuerpo.
  assert (Hn : ∀ (columna : list str) n,
            n ∈ filter (λ n, es_nombre n = true) columna →
            n ≠ [] ∧ es_nan n = false ∧ strip n ≠ []).
  { intros columna n [Hn _]%list_elem_of_filter. unfold es_nombre in Hn.
    apply andb_true_iff in Hn as [[H1 H2]%andb_true_iff H3].
    apply negb_true_iff in H1, H2, H3.
    apply bool_decide_eq_false in H1, H3. done. }
  repeat case_bool_decide.
  - destruct (read_excel E ruta) as [columna|e] eqn:Hx.
    + split; [apply Hn|]. right. exists columna.
      split; [by left|apply sublist_filter].
    + split; [by intros n ?%elem_of_nil|by left].
  - destruct (read_csv E ruta) as [columna|e] eqn:Hx.
    + split; [apply Hn|]. right. exists columna.
      split; [by right|apply sublist_filter].
    + split; [by intros n ?%elem_of_nil|by left].
  - split; [by intros n ?%elem_of_nil|by left].
Qed.

(** Without patrones.txt the three built-in patterns are used.  With it,
    the patterns are lines of the file, trimmed and in the order of the
    file; none is empty, none starts with the comment sign, none has white
    space at either end.  A file of comments and blank lines gives no
    pattern at all, not the built-in ones. *)
Theorem cargar_patrones_del_archivo (E : entorno) :
  (patrones_txt E = None → cargar_patrones E = patrones_por_defecto)
  ∧ (∀ lineas, patrones_txt E = Some lineas →
       cargar_patrones E `sublist_of` (strip <$> lineas)
       ∧ (∀ p, p ∈ cargar_patrones E →
               p ≠ [] ∧ head p ≠ Some 35%N
               ∧ empieza_en_blanco p = false ∧ acaba_en_blanco p = false)
       ∧ (Forall (λ linea, es_patron (strip linea) = false) lineas →
          cargar_patrones E = [])).
Proof.
  unfold cargar_patrones. split; [by intros ->|].
  intros lineas ->. split; [apply sublist_filter|]. split.
  - intros p [Hp [linea [-> _]]%list_elem_of_fmap]%list_elem_of_filter.
    unfold es_patron in Hp.
    split; [by destruct (strip linea)|].
    split; [|split; [apply strip_empieza|apply strip_acaba]].
    destruct (strip linea) as [|c s]; [done|]. simpl.
    intros [= ->]. done.
  - induction 1 as [|linea resto Hl _ IH]; [done|].
    rewrite fmap_cons, filter_cons_False by congruence. exact IH.
Qed.

Lemma cargar_patrones_del_archivo_ejemplo :
  cargar_patrones entorno_ejemplo `sublist_of` (strip <$> dos_marcadores)
  ∧ ∀ p, p ∈ cargar_patrones entorno_ejemplo →
         p ≠ [] ∧ head p ≠ Some 35%N
         ∧ empieza_en_blanco p = false ∧ acaba_en_blanco p = false.
Proof.
  destruct (cargar_patrones_del_archivo entorno_ejemplo) as [_ H].
  destruct (H dos_marcadores eq_refl) as (H1 & H2 & _). by split.
Defined.

(** ** The purge of the output folder *)

Lemma limpiar_carpeta_salida_queda (E : entorno) (st : estado) (n : str) :
  n ∈ salida (limpiar_carpeta_salida E st).2
  ↔ n ∈ salida st ∧ ¬ (glob_pdf n = true ∧ unlink_salida E n = true).
Proof.
  unfold limpiar_carpeta_salida. cbn [snd salida].
  rewrite elem_of_difference, !elem_of_filter. tauto.
Qed.

(** The purge never raises.  It removes the PDFs among the entries of the
    output folder whose [unlink] succeeds, and nothing else: the other
    files stay, as do the PDFs that cannot be deleted and those that lie in
    a folder of the folder.  The number it returns is the number of files
    removed.  Handles and input files are not touched. *)
Theorem limpiar_carpeta_salida_efecto (E : entorno) (st : estado) :
  ∃ eliminados,
    (limpiar_carpeta_salida E st).1 = Ok eliminados
    ∧ (∀ n, n ∈ salida (limpiar_carpeta_salida E st).2
            ↔ n ∈ salida st
              ∧ ¬ (glob_pdf n = true ∧ unlink_salida E n = true))
    ∧ size (salida st)
      = eliminados + size (salida (limpiar_carpeta_salida E st).2)
    ∧ abiertos (limpiar_carpeta_salida E st).2 = abiertos st
    ∧ borrados (limpiar_carpeta_salida E st).2 = borrados st.
Proof.
  eexists. split; [reflexivity|]. split; [apply limpiar_carpeta_salida_queda|].
  split; [|done]. cbn [limpiar_carpeta_salida snd salida].
  set (quitados := filter (λ n, unlink_salida E n = true)
                     (filter (λ n, glob_pdf n = true) (salida st))).
  assert (Hsub : quitados ⊆ salida st).
  { intros n [_ [_ Hn]%elem_of_filter]%elem_of_filter. done. }
  rewrite size_difference by done.
  apply subseteq_size in Hsub. lia.
Qed.

(** ** The loop over the pages, once more *)

Lemma filter_todos {A} (P : A → Prop) `{!∀ x, Decision (P x)} (l : list A) :
  Forall P l → filter P l = l.
Proof.
  induction 1 as [|x l Hx _ IH]; [done|].
  by rewrite filter_cons_True, IH.
Qed.

Section MasBucle.

Context (E : entorno) (ruta_pdf carpeta_salida : str).
Context (lista_nombres : option (list str)).
Context (patrones : list str) (prefijo sufijo : str).

Local Abbreviation paso :=
  (procesar_pagina E ruta_pdf carpeta_salida lista_nombres patrones prefijo
     sufijo).
Local Abbreviation bucle :=
  (procesar_paginas E ruta_pdf carpeta_salida lista_nombres patrones prefijo
     sufijo).

Implicit Types (i : nat) (pagina : str) (r : resultados) (st : estado).

(** What holds of the state before and is kept by every round, whatever
    its outcome, holds of the state after the loop, whatever its outcome. *)
Lemma procesar_paginas_siempre (Inv : estado → Prop) :
  (∀ i pagina r st, Inv st → Inv (paso i pagina r st).2) →
  ∀ (paginas : list str) i r st, Inv st → Inv (bucle i paginas r st).2.
Proof.
  intros Hpaso paginas.
  induction paginas as [|pagina resto IH]; intros i r st Hinv; [done|].
  rewrite procesar_paginas_cons.
  specialize (Hpaso i pagina r st Hinv).
  destruct (paso i pagina r st) as [[r1|e] st1]; [by apply IH|done].
Qed.

(** A round only adds to the output folder, deletes no input file and
    makes no folder. *)
Lemma procesar_pagina_no_borra i pagina r st :
  salida st ⊆ salida (paso i pagina r st).2
  ∧ borrados (paso i pagina r st).2 = borrados st
  ∧ carpetas (paso i pagina r st).2 = carpetas st.
Proof.
  rewrite procesar_pagina_eq.
  destruct (elegir_nombre E lista_nombres patrones i pagina) as [[n o]|e];
    [|done].
  destruct (nombre_libre _ _ _ _ _) as [a|e]; [|done].
  rewrite escribir_pagina_eq.
  destruct (escribir E ruta_pdf i a) as [| | | |? []]; simpl; split;
    try done; apply union_subseteq_r.
Qed.

(** The invariant of the rounds may rely on the page being the one of the
    document at the index of the round. *)
Lemma procesar_paginas_invariante_doc (documento : list str)
    (Inv : nat → resultados → estado → Prop) :
  (∀ i pagina r st r1 st1,
     documento !! i = Some pagina → Inv i r st →
     paso i pagina r st = (Ok r1, st1) → Inv (S i) r1 st1) →
  ∀ (paginas : list str) i r st r' st',
    drop i documento = paginas → Inv i r st →
    bucle i paginas r st = (Ok r', st') →
    Inv (i + length paginas) r' st'.
Proof.
  intros Hpaso paginas.
  induction paginas as [|pagina resto IH]; intros i r st r' st' Hdrop Hinv.
  - intros [= <- <-]. by rewrite Nat.add_0_r.
  - rewrite procesar_paginas_cons.
    destruct (paso i pagina r st) as [[r1|e] st1] eqn:H1; [|discriminate].
    intros H. simpl. rewrite <- Nat.add_succ_comm.
    assert (Hi : documento !! i = Some pagina).
    { rewrite <- (Nat.add_0_r i), <- lookup_drop, Hdrop. done. }
    eapply IH; [| |exact H].
    + replace (S i) with (i + 1) by lia.
      rewrite <- drop_drop, Hdrop. done.
    + eapply Hpaso; [exact Hi|exact Hinv|exact H1].
Qed.

(** While no error is noted, the loop leaves the open documents as they
    were, provided none of them was an output document of this PDF. *)
Lemma procesar_paginas_sin_fugas (hs : list handle) (paginas : list str)
    i r r' st st' :
  (∀ j, HSalida ruta_pdf j ∉ hs) →
  (errores r = [] → abiertos st = hs) →
  bucle i paginas r st = (Ok r', st') →
  errores r' = [] → abiertos st' = hs.
Proof.
  intros Hhs Hinv Hrun.
  refine (procesar_paginas_invariante E ruta_pdf carpeta_salida lista_nombres
            patrones prefijo sufijo
            (λ _ r1 st1, errores r1 = [] → abiertos st1 = hs)
            _ paginas i r st r' st' Hinv Hrun).
  clear -Hhs. intros i pagina r st r1 st1 Hinv.
  rewrite procesar_pagina_eq.
  destruct (elegir_nombre E lista_nombres patrones i pagina) as [[n o]|e];
    [|discriminate].
  destruct (nombre_libre _ _ _ _ _) as [a|e]; [|discriminate].
  rewrite escribir_pagina_eq.
  destruct (escribir E ruta_pdf i a) as [| | | |? []]; intros [= <- <-];
    simpl; try (by intros ?%app_eq_nil%proj2).
  intros Herr. rewrite (Hinv Herr).
  rewrite filter_cons_False by (by intros ?).
  apply filter_todos, Forall_forall. intros h Hh ->. by apply (Hhs i).
Qed.

(** The loop over the pages before a page, then that page. *)
Lemma procesar_paginas_app (antes : list str) pagina (despues : list str)
    i r st r1 st1 :
  bucle i antes r st = (Ok r1, st1) →
  bucle i (antes ++ pagina :: despues) r st
  = match paso (i + length antes) pagina r1 st1 with
    | (Ok r2, st2) => bucle (S (i + length antes)) despues r2 st2
    | (Raise e, st2) => (Raise e, st2)
    end.
Proof.
  revert i r st. induction antes as [|p antes IH]; intros i r st.
  - intros [= <- <-]. simpl. by rewrite Nat.add_0_r.
  - cbn [app length]. rewrite !procesar_paginas_cons.
    destruct (paso i p r st) as [[r0|e] st0]; [|discriminate].
    intros H. rewrite (IH _ _ _ H). by rewrite Nat.add_succ_comm.
Qed.

(** A round whose first name the operating system refuses raises the
    [OSError] of [exists()] and has changed nothing. *)
Lemma procesar_pagina_ruta_rechazada i pagina r st (nombre mensaje : str)
    (origen : origen_t) :
  elegir_nombre E lista_nombres patrones i pagina = Ok (nombre, origen) →
  rechazo E ruta_pdf i
    (nombre_base prefijo (limpiar_nombre_archivo nombre) sufijo)
  = Some mensaje →
  paso i pagina r st = (Raise (OSError mensaje), st).
Proof.
  intros Hn Hrech. rewrite procesar_pagina_eq, Hn.
  unfold nombre_libre. by rewrite mientras_existe_eq, Hrech.
Qed.

(** No round closes the input document. *)
Lemma procesar_paginas_entrada_abierta (paginas : list str) i r st :
  HEntrada ruta_pdf ∈ abiertos st →
  HEntrada ruta_pdf ∈ abiertos (bucle i paginas r st).2.
Proof.
  apply (procesar_paginas_siempre (λ st1, HEntrada ruta_pdf ∈ abiertos st1)).
  clear. intros i pagina r st Hin. rewrite procesar_pagina_eq.
  destruct (elegir_nombre E lista_nombres patrones i pagina) as [[n o]|e];
    [|done].
  destruct (nombre_libre _ _ _ _ _) as [a|e]; [|done].
  rewrite escribir_pagina_eq.
  destruct (escribir E ruta_pdf i a) as [| | | |? []];
    cbn [snd con_abiertos con_salida abiertos]; try done;
    try (by apply elem_of_cons; right).
  apply list_elem_of_filter. split; [done|]. by apply elem_of_cons; right.
Qed.

End MasBucle.

(** ** separar_certificados, once more *)

Section MasSeparar.

Context (E : entorno) (ruta_pdf : str) (carpeta_salida : option str).
Context (lista_nombres patrones : option (list str)) (prefijo sufijo : str).

Local Abbreviation separar :=
  (separar_certificados E ruta_pdf carpeta_salida lista_nombres patrones
     prefijo sufijo).
Local Abbreviation con_carpeta st :=
  (con_carpetas ({[carpeta_de E carpeta_salida]} ∪ carpetas st) st).

Implicit Types (r : resultados) (st : estado).

Lemma separar_certificados_estado st :
  salida st ⊆ salida (separar st).2
  ∧ borrados (separar st).2 = borrados st.
Proof.
  unfold separar_certificados.
  destruct (leer_pdf E ruta_pdf) as [[m|documento]|]; try done.
  desplegar_M.
  pose proof (procesar_paginas_siempre E ruta_pdf
                (carpeta_de E carpeta_salida) lista_nombres
                (patrones_efectivos E patrones) prefijo sufijo
                (λ st1, salida st ⊆ salida st1 ∧ borrados st1 = borrados st))
    as Hbucle.
  assert (Hpaso : ∀ i pagina r st1,
            salida st ⊆ salida st1 ∧ borrados st1 = borrados st →
            salida st
            ⊆ salida (procesar_pagina E ruta_pdf
                        (carpeta_de E carpeta_salida) lista_nombres
                        (patrones_efectivos E patrones) prefijo sufijo
                        i pagina r st1).2
            ∧ borrados (procesar_pagina E ruta_pdf
                          (carpeta_de E carpeta_salida) lista_nombres
                          (patrones_efectivos E patrones) prefijo sufijo
                          i pagina r st1).2 = borrados st).
  { intros i pagina r0 st1 [H1 H2].
    destruct (procesar_pagina_no_borra E ruta_pdf
                (carpeta_de E carpeta_salida) lista_nombres
                (patrones_efectivos E patrones) prefijo sufijo
                i pagina r0 st1) as (H3 & H4 & _).
    split; [by etrans|congruence]. }
  specialize (Hbucle Hpaso documento 0
                (sin_resultados (length documento) (path_name E ruta_pdf))
                (con_abiertos (HEntrada ruta_pdf :: abiertos st)
                   (con_carpeta st))
                (conj (reflexivity _) eq_refl)).
  destruct (procesar_paginas _ _ _ _ _ _ _ _ _ _ _) as [[r1|e] st1];
    exact Hbucle.
Qed.

(** A run, whatever its outcome, only adds files to the output folder and
    deletes no input file; on a path that does not exist it raises
    FileNotFoundError and changes nothing at all; on a file the PDF library
    refuses it raises the error of the library, having made sure of the
    output folder (line 221 comes before line 228) and changed nothing
    else: no file is written and no document left open. *)
Theorem separar_certificados_no_borra st :
  let corrida :=
    separar_certificados E ruta_pdf carpeta_salida lista_nombres patrones
      prefijo sufijo st in
  salida st ⊆ salida corrida.2
  ∧ borrados corrida.2 = borrados st
  ∧ (leer_pdf E ruta_pdf = None →
     corrida = (Raise (FileNotFoundError ruta_pdf), st))
  ∧ (∀ mensaje, leer_pdf E ruta_pdf = Some (PdfIlegible mensaje) →
       corrida = (Raise (ErrorExterno mensaje), con_carpeta st)).
Proof.
  cbn zeta. destruct (separar_certificados_estado st) as [H1 H2].
  split; [done|]. split; [done|].
  unfold separar_certificados. split; [by intros ->|by intros m ->].
Qed.

(** A run that returns a summary without errors leaves no document open:
    the open documents are those open before, provided none of them was a
    document of this PDF. *)
Theorem separar_certificados_sin_fugas st st' r :
  separar_certificados E ruta_pdf carpeta_salida lista_nombres patrones
    prefijo sufijo st
  = (Ok r, st') →
  errores r = [] →
  (∀ h, h ∈ abiertos st →
        h ≠ HEntrada ruta_pdf ∧ ∀ j, h ≠ HSalida ruta_pdf j) →
  abiertos st' = abiertos st.
Proof.
  intros (documento & st1 & _ & Hrun & ->)%separar_certificados_ok Herr Hst.
  apply (procesar_paginas_sin_fugas E ruta_pdf (carpeta_de E carpeta_salida)
           lista_nombres (patrones_efectivos E patrones) prefijo sufijo
           (HEntrada ruta_pdf :: abiertos st)) in Hrun; [|..|done].
  - cbn [con_abiertos abiertos]. rewrite Hrun.
    rewrite filter_cons_False by (by intros ?).
    apply filter_todos, Forall_forall. intros h Hh. by apply Hst.
  - intros j [?|Hin]%elem_of_cons; [done|].
    by destruct (Hst _ Hin) as [_ Hj]; apply (Hj j).
  - done.
Qed.

(** The summary is true to the document: each success names a page of the
    document by its number, carries the name and the source tag lines
    258-269 choose for that page, and as its file the path, in the output
    folder of the run, of a file name that is the sanitised name between
    prefix and suffix, with .pdf, or the same with a counter of at least 1
    after the name. *)
Theorem separar_certificados_resumen_fiel st st' r :
  separar_certificados E ruta_pdf carpeta_salida lista_nombres patrones
    prefijo sufijo st
  = (Ok r, st') →
  ∃ documento,
    leer_pdf E ruta_pdf = Some (Pdf documento)
    ∧ ∀ e, e ∈ exitosos r →
        ∃ texto nombre_archivo,
          1 ≤ pagina e
          ∧ documento !! (pagina e - 1) = Some texto
          ∧ elegir_nombre E lista_nombres (patrones_efectivos E patrones)
              (pagina e - 1) texto = Ok (nombre e, origen e)
          ∧ archivo e
            = ruta_en E (carpeta_de E carpeta_salida) nombre_archivo
          ∧ (nombre_archivo
             = nombre_base prefijo (limpiar_nombre_archivo (nombre e)) sufijo
             ∨ ∃ n, 1 ≤ n
                    ∧ nombre_archivo
                      = nombre_numerado prefijo
                          (limpiar_nombre_archivo (nombre e)) sufijo n).
Proof.
  intros (documento & st1 & Hpdf & Hrun & _)%separar_certificados_ok.
  exists documento. split; [done|].
  refine (procesar_paginas_invariante_doc E ruta_pdf
            (carpeta_de E carpeta_salida) lista_nombres
            (patrones_efectivos E patrones) prefijo sufijo documento
            (λ _ r1 _, ∀ e, e ∈ exitosos r1 → _) _ documento 0 _ _ r st1
            eq_refl _ Hrun); [|by intros e ?%elem_of_nil].
  clear. intros i texto r0 st0 r1 st1 Hi Hinv H.
  apply procesar_pagina_casos in H
    as (n & o & a & Hn & Hlibre & [(_ & -> & _)|(_ & [m ->] & _)]); [|done].
  intros e [He| ->%list_elem_of_singleton]%elem_of_app; [by apply Hinv|].
  exists texto, a. cbn [pagina nombre archivo origen].
  replace (i + 1 - 1) with i by lia.
  split; [lia|]. split; [done|]. split; [done|]. split; [done|].
  apply nombre_libre_correcto in Hlibre as (_ & _ & Hbase & Hnum).
  destruct (decide (nombre_base prefijo (limpiar_nombre_archivo n) sufijo
                    ∈ salida st0)) as [Hin|Hno].
  - right. destruct (Hnum Hin) as (k & Hk & -> & _). by exists k.
  - left. by apply Hbase.
Qed.

(** What a run into the folder salida/ writes, the purge removes: when
    neither the prefix nor the suffix holds a path separator, every file
    of the run is an entry of that folder, and after a run that returns and
    a purge in which every [unlink] succeeds, the folder holds the files it
    held before the run that the purge does not select (those that are no
    PDF entries of the folder), and nothing else. *)
Theorem separar_certificados_y_purga st st' r :
  separar_certificados E ruta_pdf carpeta_salida lista_nombres patrones
    prefijo sufijo st
  = (Ok r, st') →
  carpeta_de E carpeta_salida = carpeta_salida_defecto E →
  sin_separador prefijo → sin_separador sufijo →
  (∀ n, unlink_salida E n = true) →
  salida (limpiar_carpeta_salida E st').2
  = filter (λ n, glob_pdf n = false) (salida st).
Proof.
  intros (nombres & restos & _ & _ & _ & Hnew & Hfs)%separar_certificados_salida
    _ Hp Hs Hun.
  apply set_eq. intros n.
  rewrite limpiar_carpeta_salida_queda, elem_of_filter, Hfs, elem_of_union.
  rewrite elem_of_list_to_set, Hun. unfold glob_pdf.
  split.
  - intros [[Hin|Hin] Hno].
    + destruct Hno. destruct (Hnew n Hin) as [Hn _].
      rewrite (nombre_de_salida_es_pdf _ _ _ Hn).
      by rewrite (nombre_de_salida_directo _ _ _ Hp Hs Hn).
    + split; [|done].
      destruct (es_pdf n && directo n); [by destruct Hno|done].
  - intros [Hno Hin]. split; [by right|]. rewrite Hno. by intros [? _].
Qed.

(** Over a whole run that returns, the files noted for the successes are
    the paths, in the output folder of the run, of pairwise distinct names
    of PDFs, none of which the folder held before and all of which it
    holds afterwards.  The folder loses nothing; it gains one file for
    each success and at most one more for each error (what a failed [save]
    leaves behind), and what it gains are names of PDFs. *)
Theorem separar_certificados_archivos_distintos st st' r :
  separar_certificados E ruta_pdf carpeta_salida lista_nombres patrones
    prefijo sufijo st
  = (Ok r, st') →
  ∃ nombres,
    archivo <$> exitosos r
    = ruta_en E (carpeta_de E carpeta_salida) <$> nombres
    ∧ NoDup nombres
    ∧ Forall (λ a, es_pdf a = true ∧ (a ∉ salida st) ∧ a ∈ salida st') nombres
    ∧ salida st ⊆ salida st'
    ∧ size (salida st) + length (exitosos r) ≤ size (salida st')
    ∧ size (salida st')
      ≤ size (salida st) + length (exitosos r) + length (errores r)
    ∧ ∀ a, a ∈ salida st' → a ∉ salida st → es_pdf a = true.
Proof.
  intros Hrun.
  destruct (separar_certificados_salida _ _ _ _ _ _ _ _ _ _ Hrun)
    as (nombres & restos & Harch & Hlen & Hnd & Hnew & Hfs).
  exists nombres. split; [done|].
  split; [by apply NoDup_app in Hnd as (? & _ & _)|].
  assert (Hlenn : length (exitosos r) = length nombres).
  { by rewrite <- (length_fmap archivo), Harch, length_fmap. }
  assert (Hsize : size (salida st')
                  = length nombres + length restos + size (salida st)).
  { rewrite Hfs, size_union.
    - by rewrite size_list_to_set, length_app.
    - intros a Ha%elem_of_list_to_set Hin. by destruct (Hnew a Ha). }
  split; [|split; [|split; [lia|split; [lia|]]]].
  - apply Forall_forall. intros a Ha.
    assert (Hin : a ∈ nombres ++ restos) by (apply elem_of_app; by left).
    destruct (Hnew a Hin) as [Hn Hno].
    split; [by eapply nombre_de_salida_es_pdf|]. split; [done|].
    rewrite Hfs, elem_of_union, elem_of_list_to_set. by left.
  - rewrite Hfs. apply union_subseteq_r.
  - intros a Ha Hno. rewrite Hfs, elem_of_union, elem_of_list_to_set in Ha.
    destruct Ha as [Ha|Ha]; [|done].
    destruct (Hnew a Ha) as [Hn _]. by eapply nombre_de_salida_es_pdf.
Qed.

(** A run that returns has closed the input document, and whatever document
    it leaves open that was not open before is the output document of a
    page noted as an error. *)
Theorem separar_certificados_abiertos st st' r :
  separar_certificados E ruta_pdf carpeta_salida lista_nombres patrones
    prefijo sufijo st
  = (Ok r, st') →
  (HEntrada ruta_pdf ∉ abiertos st')
  ∧ ∀ h, h ∈ abiertos st' →
      h ∈ abiertos st
      ∨ ∃ j, h = HSalida ruta_pdf j ∧ j + 1 ∈ paginas_fallidas r.
Proof.
  intros Hrun.
  split; [by eapply separar_certificados_cierra_entrada|].
  apply separar_certificados_ok in Hrun
    as (documento & st1 & _ & Hrun & ->).
  cbn [con_abiertos abiertos]. intros h [Hne Hin]%list_elem_of_filter.
  revert h Hin Hne.
  refine (procesar_paginas_invariante E ruta_pdf (carpeta_de E carpeta_salida)
            lista_nombres (patrones_efectivos E patrones) prefijo sufijo
            (λ _ r1 st1,
               ∀ h, h ∈ abiertos st1 → h ≠ HEntrada ruta_pdf →
                 h ∈ abiertos st
                 ∨ ∃ j, h = HSalida ruta_pdf j ∧ j + 1 ∈ paginas_fallidas r1)
            _ documento 0 _ _ r st1 _ Hrun).
  - clear. intros i pagina r0 st0 r1 st1 Hinv.
    rewrite procesar_pagina_eq.
    destruct (elegir_nombre E lista_nombres _ i pagina) as [[n o]|e];
      [|discriminate].
    destruct (nombre_libre _ _ _ _ _) as [a|e]; [|discriminate].
    rewrite escribir_pagina_eq.
    assert (Hmas : ∀ f h, h ∈ abiertos st0 → h ≠ HEntrada ruta_pdf →
              h ∈ abiertos st
              ∨ ∃ j, h = HSalida ruta_pdf j
                     ∧ j + 1 ∈ paginas_fallidas (anotar_error r0 f)).
    { intros f h Hh Hne. destruct (Hinv h Hh Hne) as [?|(j & -> & Hj)];
        [by left|right]. exists j. split; [done|].
      unfold paginas_fallidas in *. cbn [anotar_error errores].
      rewrite fmap_app. apply elem_of_app. by left. }
    assert (Hnuevo : ∀ f, pagina_fallida f = i + 1 →
              ∀ h, h ∈ HSalida ruta_pdf i :: abiertos st0 →
                h ≠ HEntrada ruta_pdf →
                h ∈ abiertos st
                ∨ ∃ j, h = HSalida ruta_pdf j
                       ∧ j + 1 ∈ paginas_fallidas (anotar_error r0 f)).
    { intros f Hf h [->|Hh]%elem_of_cons Hne; [|by apply Hmas].
      right. exists i. split; [done|].
      unfold paginas_fallidas. cbn [anotar_error errores].
      rewrite fmap_app, <- Hf. apply elem_of_app. right. by left. }
    destruct (escribir E ruta_pdf i a) as [| | | |? []]; intros [= <- <-];
      cbn [con_abiertos con_salida abiertos]; intros h Hh Hne.
    + apply list_elem_of_filter in Hh as [Hh1 Hh2].
      apply elem_of_cons in Hh2 as [->|Hh2]; [done|]. by apply Hinv.
    + by apply Hnuevo.
    + by apply Hmas.
    + by apply Hnuevo.
    + by apply Hnuevo.
    + by apply Hnuevo.
  - cbn [con_abiertos abiertos]. intros h [->|Hh]%elem_of_cons Hne;
      [done|by left].
Qed.

(** An [OSError] of [exists()] ends the whole run: lines 277-281 are not
    inside the [try].  When the pages before a page are gone through
    without exception and the operating system refuses the first name
    tried for that page, the run raises that [OSError]; the pages after it
    are not looked at, what the pages before wrote stays written, and the
    input document is left open, line 308 being skipped. *)
Theorem separar_certificados_ruta_rechazada st (antes despues : list str)
    (pagina nombre mensaje : str) (origen : origen_t) r1 st1 :
  leer_pdf E ruta_pdf = Some (Pdf (antes ++ pagina :: despues)) →
  procesar_paginas E ruta_pdf (carpeta_de E carpeta_salida) lista_nombres
    (patrones_efectivos E patrones) prefijo sufijo 0 antes
    (sin_resultados (length (antes ++ pagina :: despues))
       (path_name E ruta_pdf))
    (con_abiertos (HEntrada ruta_pdf :: abiertos st) (con_carpeta st))
  = (Ok r1, st1) →
  elegir_nombre E lista_nombres (patrones_efectivos E patrones)
    (length antes) pagina = Ok (nombre, origen) →
  rechazo E ruta_pdf (length antes)
    (nombre_base prefijo (limpiar_nombre_archivo nombre) sufijo)
  = Some mensaje →
  separar_certificados E ruta_pdf carpeta_salida lista_nombres patrones
    prefijo sufijo st
  = (Raise (OSError mensaje), st1)
  ∧ HEntrada ruta_pdf ∈ abiertos st1
  ∧ length (exitosos r1) + length (errores r1) = length antes.
Proof.
  intros Hpdf Hantes Hn Hrech. split; [|split].
  - unfold separar_certificados. rewrite Hpdf. desplegar_M.
    erewrite procesar_paginas_app; [|exact Hantes].
    cbn [Nat.add].
    erewrite procesar_pagina_ruta_rechazada; [reflexivity|exact Hn|exact Hrech].
  - pose proof (procesar_paginas_entrada_abierta E ruta_pdf
                  (carpeta_de E carpeta_salida) lista_nombres
                  (patrones_efectivos E patrones) prefijo sufijo antes 0
                  (sin_resultados (length (antes ++ pagina :: despues))
                     (path_name E ruta_pdf))
                  (con_abiertos (HEntrada ruta_pdf :: abiertos st)
                     (con_carpeta st))) as Hab.
    rewrite Hantes in Hab. apply Hab. by left.
  - apply procesar_paginas_particion in Hantes as [(_ & _ & Hperm) _];
      [|apply particion_hasta_vacia].
    apply Permutation_length in Hperm.
    rewrite length_app, length_seq in Hperm.
    unfold paginas_exitosas, paginas_fallidas in Hperm.
    by rewrite !length_fmap in Hperm.
Qed.

End MasSeparar.

(** ** The run of the example, once more *)

Lemma separar_certificados_sin_fugas_ejemplo :
  abiertos corrida_ejemplo.2 = abiertos (estado_inicial ∅).
Proof.
  apply (separar_certificados_sin_fugas entorno_ejemplo
           (lit "certificados.pdf") None (Some [lit "Bob Smith"]) None [] []
           (estado_inicial ∅) corrida_ejemplo.2
           (valor (sin_resultados 0 []) corrida_ejemplo)).
  - by vm_compute.
  - by vm_compute.
  - intros h Hh. by apply elem_of_nil in Hh.
Defined.

Lemma separar_certificados_resumen_fiel_ejemplo :
  ∃ documento,
    leer_pdf entorno_ejemplo (lit "certificados.pdf") = Some (Pdf documento)
    ∧ ∀ e, e ∈ exitosos (valor (sin_resultados 0 []) corrida_ejemplo) →
        ∃ texto nombre_archivo,
          1 ≤ pagina e
          ∧ documento !! (pagina e - 1) = Some texto
          ∧ elegir_nombre entorno_ejemplo (Some [lit "Bob Smith"])
              (patrones_efectivos entorno_ejemplo None)
              (pagina e - 1) texto = Ok (nombre e, origen e)
          ∧ archivo e
            = ruta_en entorno_ejemplo (carpeta_de entorno_ejemplo None)
                nombre_archivo
          ∧ (nombre_archivo
             = nombre_base [] (limpiar_nombre_archivo (nombre e)) []
             ∨ ∃ n, 1 ≤ n
                    ∧ nombre_archivo
                      = nombre_numerado []
                          (limpiar_nombre_archivo (nombre e)) [] n).
Proof.
  apply (separar_certificados_resumen_fiel entorno_ejemplo
           (lit "certificados.pdf") None (Some [lit "Bob Smith"]) None [] []
           (estado_inicial ∅) corrida_ejemplo.2).
  by vm_compute.
Defined.

Lemma separar_certificados_y_purga_ejemplo :
  salida (limpiar_carpeta_salida entorno_ejemplo corrida_mixta.2).2
  = filter (λ n, glob_pdf n = false) (salida estado_mixto).
Proof.
  apply (separar_certificados_y_purga entorno_ejemplo
           (lit "certificados.pdf") None (Some [lit "Bob Smith"]) None [] []
           estado_mixto corrida_mixta.2
           (valor (sin_resultados 0 []) corrida_mixta)).
  - by vm_compute.
  - reflexivity.
  - constructor.
  - constructor.
  - reflexivity.
Defined.

(** In the folder of the example the run adds three PDFs, and the purge
    then leaves the text file and the PDF that lies in a folder of its
    own. *)
Lemma separar_certificados_y_purga_mixta :
  size (salida corrida_mixta.2) = 6
  ∧ salida (limpiar_carpeta_salida entorno_ejemplo corrida_mixta.2).2
    = {[ lit "notas.txt"; lit "sub/otro.pdf" ]}.
Proof. split; by vm_compute. Qed.

Lemma separar_certificados_archivos_distintos_ejemplo :
  ∃ nombres,
    archivo <$> exitosos (valor (sin_resultados 0 []) corrida_ejemplo)
    = ruta_en entorno_ejemplo (carpeta_de entorno_ejemplo None) <$> nombres
    ∧ NoDup nombres
    ∧ Forall (λ a, es_pdf a = true ∧ (a ∉ salida (estado_inicial ∅))
                   ∧ a ∈ salida corrida_ejemplo.2) nombres
    ∧ salida (estado_inicial ∅) ⊆ salida corrida_ejemplo.2
    ∧ size (salida (estado_inicial ∅))
      + length (exitosos (valor (sin_resultados 0 []) corrida_ejemplo))
      ≤ size (salida corrida_ejemplo.2)
    ∧ size (salida corrida_ejemplo.2)
      ≤ size (salida (estado_inicial ∅))
        + length (exitosos (valor (sin_resultados 0 []) corrida_ejemplo))
        + length (errores (valor (sin_resultados 0 []) corrida_ejemplo))
    ∧ ∀ a, a ∈ salida corrida_ejemplo.2 → a ∉ salida (estado_inicial ∅) →
           es_pdf a = true.
Proof.
  apply (separar_certificados_archivos_distintos entorno_ejemplo
           (lit "certificados.pdf") None (Some [lit "Bob Smith"]) None [] []
           (estado_inicial ∅) corrida_ejemplo.2).
  by vm_compute.
Defined.

Lemma separar_certificados_ruta_rechazada_ejemplo :
  let x := procesar_paginas entorno_ruta_rechazada (lit "certificados.pdf")
             (lit "salida") None dos_marcadores [] [] 0
             [lit "Se otorga a: Jane Doe"] (sin_resultados 3 (lit "certificados.pdf"))
             (con_abiertos [HEntrada (lit "certificados.pdf")]
                (con_carpetas {[lit "salida"]} (estado_inicial ∅))) in
  separar_certificados entorno_ruta_rechazada (lit "certificados.pdf") None
    None None [] [] (estado_inicial ∅)
  = (Raise (OSError (lit "File name too long")), x.2)
  ∧ HEntrada (lit "certificados.pdf") ∈ abiertos x.2
  ∧ length (exitosos (valor (sin_resultados 0 []) x))
    + length (errores (valor (sin_resultados 0 []) x)) = 1.
Proof.
  cbn zeta.
  apply (separar_certificados_ruta_rechazada entorno_ruta_rechazada
           (lit "certificados.pdf") None None None [] [] (estado_inicial ∅)
           [lit "Se otorga a: Jane Doe"] [lit "Se certifica a: Ana Ruiz"]
           (lit "Constancia de participacion") (lit "certificado_002")
           (lit "File name too long") Generado).
  - reflexivity.
  - by vm_compute.
  - by vm_compute.
  - by vm_compute.
Defined.

(** With the name of page 2 refused, page 1 is written and the run ends on
    the [OSError]; the script then exits with status 1. *)
Lemma separar_certificados_ruta_rechazada_corrida :
  (separar_certificados entorno_ruta_rechazada (lit "certificados.pdf") None
     None None [] [] (estado_inicial ∅)).1
  = Raise (OSError (lit "File name too long"))
  ∧ salida
      (separar_certificados entorno_ruta_rechazada (lit "certificados.pdf")
         None None None [] [] (estado_inicial ∅)).2
    = {[ lit "Jane Doe.pdf" ]}
  ∧ (main entorno_ruta_rechazada args_archivo (estado_inicial ∅)).1 = Ok 1.
Proof. repeat split; by vm_compute. Qed.

(** With a full disk every [save] fails and leaves an empty file: the
    summary has no success, and the folder holds three files all the
    same. *)
Lemma separar_certificados_disco_lleno :
  exitosos (valor (sin_resultados 0 []) corrida_disco_lleno) = []
  ∧ salida corrida_disco_lleno.2
    = {[ lit "Jane Doe.pdf"; lit "certificado_002.pdf"; lit "Ana Ruiz.pdf" ]}.
Proof. split; by vm_compute. Qed.

(** ** The input folder *)

Section Carpeta.

Context (E : entorno) (lista_nombres : option (list str)).
Context (prefijo sufijo : str).

Implicit Types (st : estado) (pdfs : list str).

(** A summary without errors that a run on the PDF at [p] returned. *)
Local Abbreviation limpio p rs :=
  (∃ st_p st_p' r,
     separar_certificados E p (Some (carpeta_salida_defecto E)) lista_nombres
       (Some (cargar_patrones E)) prefijo sufijo st_p = (Ok r, st_p')
     ∧ errores r = [] ∧ r ∈ rs).

Lemma eliminar_pdfs_efecto pdfs st :
  eliminar_pdfs E pdfs st
  = (Ok (), {| salida := salida st; abiertos := abiertos st;
               borrados := borrados st
                           ++ filter (λ p, borrable E p = true) pdfs;
               carpetas := carpetas st |}).
Proof.
  revert st. induction pdfs as [|p pdfs IH]; intros st.
  - simpl. rewrite ?app_nil_r. by destruct st.
  - cbn [eliminar_pdfs]. unfold mbind, M_bind, eliminar_pdf_entrada.
    unfold borrable at 1.
    destruct (leer_pdf E p) as [f|] eqn:Hp.
    + destruct (unlink_entrada E p) eqn:Hu.
      * rewrite IH. rewrite filter_cons_True by (unfold borrable; by rewrite Hp).
        cbn [salida abiertos borrados carpetas].
        by rewrite <- (assoc_L (++)).
      * rewrite IH. rewrite filter_cons_False;
          [done|unfold borrable; rewrite Hp; congruence].
    + rewrite IH. rewrite filter_cons_False;
        [done|unfold borrable; by rewrite Hp].
Qed.

(** The loop over the PDFs never raises; it deletes nothing, gives at most
    one summary per PDF, and marks for deletion only PDFs of its list whose
    run returned a summary without errors. *)
Lemma procesar_pdfs_efecto pdfs :
  ∀ (todos : list resultados) (procesados : list str) st,
  ∃ mas nuevos st',
    procesar_pdfs E lista_nombres (cargar_patrones E) prefijo sufijo pdfs
      todos procesados st = (Ok (todos ++ mas, procesados ++ nuevos), st')
    ∧ borrados st' = borrados st
    ∧ length mas ≤ length pdfs
    ∧ nuevos `sublist_of` pdfs
    ∧ ∀ p, p ∈ nuevos → limpio p mas.
Proof.
  induction pdfs as [|pdf resto IH]; intros todos procesados st.
  - exists [], [], st. rewrite !app_nil_r.
    repeat split; try done. by intros p ?%elem_of_nil.
  - cbn [procesar_pdfs]. desplegar_M.
    pose proof (separar_certificados_estado E pdf
                  (Some (carpeta_salida_defecto E)) lista_nombres
                  (Some (cargar_patrones E)) prefijo sufijo st) as [_ Hb].
    destruct (separar_certificados E pdf (Some (carpeta_salida_defecto E))
                lista_nombres (Some (cargar_patrones E)) prefijo sufijo st)
      as [[r|e] st1] eqn:Hrun; cbn [snd] in Hb.
    + destruct (errores r) as [|f fs] eqn:Herr; cbn beta iota.
      * destruct (IH (todos ++ [r]) (procesados ++ [pdf]) st1)
          as (mas & nuevos & st' & -> & Hb' & Hlen & Hsub & Hlimpio).
        exists (r :: mas), (pdf :: nuevos), st'.
        rewrite <- !(assoc_L (++)). split; [done|].
        split; [congruence|]. split; [simpl; lia|].
        split; [by constructor|].
        intros p [->|Hp]%elem_of_cons.
        -- exists st, st1, r. split; [done|]. split; [done|]. by left.
        -- destruct (Hlimpio p Hp) as (s1 & s2 & r' & H1 & H2 & H3).
           exists s1, s2, r'. split; [done|]. split; [done|]. by right.
      * destruct (IH (todos ++ [r]) procesados st1)
          as (mas & nuevos & st' & -> & Hb' & Hlen & Hsub & Hlimpio).
        exists (r :: mas), nuevos, st'.
        rewrite <- !(assoc_L (++)). split; [done|].
        split; [congruence|]. split; [simpl; lia|].
        split; [by apply sublist_cons|].
        intros p Hp.
        destruct (Hlimpio p Hp) as (s1 & s2 & r' & H1 & H2 & H3).
        exists s1, s2, r'. split; [done|]. split; [done|]. by right.
    + cbn beta iota. destruct (IH todos procesados st1)
        as (mas & nuevos & st' & -> & Hb' & Hlen & Hsub & Hlimpio).
      exists mas, nuevos, st'. split; [done|].
      split; [congruence|]. split; [simpl; lia|].
      split; [by apply sublist_cons|done].
Qed.

(** Lines 371-400, from a state [st0]. *)
Lemma procesar_carpeta_entrada_cola pdfs (eliminar_entrada : bool) st0 :
  ∃ rs eliminados st',
    ('(todos_resultados, pdfs_procesados) ←
       procesar_pdfs E lista_nombres (cargar_patrones E) prefijo sufijo pdfs
         [] [];
     (match pdfs_procesados with
      | _ :: _ => if eliminar_entrada then eliminar_pdfs E pdfs_procesados
                  else mret ()
      | [] => mret ()
      end) ;;
     mret todos_resultados) st0 = (Ok rs, st')
    ∧ length rs ≤ length pdfs
    ∧ borrados st' = borrados st0 ++ eliminados
    ∧ eliminados `sublist_of` pdfs
    ∧ (eliminar_entrada = false → eliminados = [])
    ∧ ∀ p, p ∈ eliminados → borrable E p = true ∧ limpio p rs.
Proof.
  desplegar_M.
  destruct (procesar_pdfs_efecto pdfs [] [] st0)
    as (rs & nuevos & st1 & Hrun & Hb1 & Hlen & Hsub & Hlimpio).
  rewrite Hrun. cbn [app]. cbn beta iota.
  destruct nuevos as [|p nuevos]; [|destruct eliminar_entrada].
  - exists rs, [], st1. rewrite ?app_nil_r.
    do 5 (split; [done|]). by intros q ?%elem_of_nil.
  - rewrite eliminar_pdfs_efecto.
    eexists rs, _, _. split; [reflexivity|].
    cbn [borrados]. split; [done|]. split; [by rewrite Hb1|].
    split; [by etrans; [apply sublist_filter|]|].
    split; [done|].
    intros q [Hq Hin]%list_elem_of_filter. split; [done|].
    by apply Hlimpio.
  - exists rs, [], st1. rewrite ?app_nil_r.
    do 3 (split; [done|]). split; [apply sublist_nil_l|].
    split; [done|]. by intros q ?%elem_of_nil.
Qed.

(** What the batch run does, for any input folder and any options. *)
Lemma procesar_carpeta_entrada_efecto (limpiar_salida eliminar_entrada : bool)
    st :
  ∃ rs eliminados st',
    procesar_carpeta_entrada E lista_nombres prefijo sufijo limpiar_salida
      eliminar_entrada st = (Ok rs, st')
    ∧ length rs ≤ length (default [] (entrada E))
    ∧ borrados st' = borrados st ++ eliminados
    ∧ eliminados `sublist_of` default [] (entrada E)
    ∧ (eliminar_entrada = false → eliminados = [])
    ∧ ∀ p, p ∈ eliminados → borrable E p = true ∧ limpio p rs.
Proof.
  unfold procesar_carpeta_entrada.
  destruct (entrada E) as [[|pdf resto]|].
  - exists [], [], st. rewrite ?app_nil_r.
    do 5 (split; [done|]). by intros p ?%elem_of_nil.
  - generalize (pdf :: resto). intros pdfs. cbn [default].
    destruct limpiar_salida.
    + exact (procesar_carpeta_entrada_cola pdfs eliminar_entrada
               (limpiar_carpeta_salida E st).2).
    + exact (procesar_carpeta_entrada_cola pdfs eliminar_entrada st).
  - eexists [], [], _. split; [reflexivity|].
    cbn [con_carpetas borrados]. rewrite ?app_nil_r.
    do 4 (split; [done|]). by intros p ?%elem_of_nil.
Qed.

(** The batch run never raises: a PDF that has gone, that the PDF library
    refuses or on which the extraction raises is passed over.  It returns
    at most one summary per PDF of the input folder. *)
Theorem procesar_carpeta_entrada_no_lanza
    (limpiar_salida eliminar_entrada : bool) st :
  ∃ rs st',
    procesar_carpeta_entrada E lista_nombres prefijo sufijo limpiar_salida
      eliminar_entrada st = (Ok rs, st')
    ∧ length rs ≤ length (default [] (entrada E)).
Proof.
  destruct (procesar_carpeta_entrada_efecto limpiar_salida eliminar_entrada st)
    as (rs & _ & st' & H & Hlen & _).
  by exists rs, st'.
Qed.

(** The batch run deletes input files with care: only PDFs of the input
    folder, in its order, whose run returned a summary without a single
    error and whose [unlink] succeeds; and none at all when deleting is
    switched off. *)
Theorem procesar_carpeta_entrada_borra_solo_limpios
    (limpiar_salida eliminar_entrada : bool) st :
  ∃ eliminados,
    borrados (procesar_carpeta_entrada E lista_nombres prefijo sufijo
                limpiar_salida eliminar_entrada st).2
    = borrados st ++ eliminados
    ∧ eliminados `sublist_of` default [] (entrada E)
    ∧ (eliminar_entrada = false → eliminados = [])
    ∧ ∀ p, p ∈ eliminados →
        borrable E p = true
        ∧ limpio p (valor [] (procesar_carpeta_entrada E lista_nombres
                                prefijo sufijo limpiar_salida
                                eliminar_entrada st)).
Proof.
  destruct (procesar_carpeta_entrada_efecto limpiar_salida eliminar_entrada st)
    as (rs & eliminados & st' & H & _ & Hb & Hsub & Hno & Hlimpio).
  exists eliminados. unfold valor. rewrite H. by cbn [fst snd].
Qed.

End Carpeta.

(** ** main, once more *)

(** The script never ends on an uncaught exception of its own code: it
    always exits, with status 0 or 1. *)
Theorem main_estado_salida (E : entorno) (args : argumentos) (st : estado) :
  ∃ c st', main E args st = (Ok c, st') ∧ (c = 0 ∨ c = 1).
Proof.
  unfold main. destruct (arg_ver_patrones args); [by eexists _, _; eauto|].
  unfold leer_lista.
  assert (Hprocesar : ∀ lista,
            ∃ c st', procesar E args lista st = (Ok c, st') ∧ (c = 0 ∨ c = 1)).
  { intros lista. unfold procesar. desplegar_M.
    destruct (dado (arg_archivo args)) as [ruta|].
    - destruct (separar_certificados _ _ _ _ _ _ _ st) as [[r|e] st1];
        [destruct (errores r)|]; eexists _, _; eauto.
    - destruct (procesar_carpeta_entrada _ _ _ _ _ _ st) as [[[|r rs]|e] st1];
        eexists _, _; eauto. }
  destruct (dado (arg_lista args)) as [ruta|]; [|apply Hprocesar].
  destruct (existe_ruta E ruta); [apply Hprocesar|].
  eexists _, _; eauto.
Qed.

(** On a single file the exit status is 0 exactly when the run returns a
    summary without errors, and 1 otherwise: when a page failed, when the
    file is missing or unreadable, when the extraction raised.  The state
    the script leaves is the one the run leaves. *)
Theorem main_un_archivo (E : entorno) (args : argumentos)
    (lista_nombres : option (list str)) (ruta : str) (st : estado) :
  arg_ver_patrones args = false →
  leer_lista E args = inr lista_nombres →
  dado (arg_archivo args) = Some ruta →
  let corrida := separar_certificados E ruta (arg_salida args) lista_nombres
                   None (arg_prefijo args) (arg_sufijo args) st in
  ((main E args st).1 = Ok 0 ↔ ∃ r, corrida.1 = Ok r ∧ errores r = [])
  ∧ ((main E args st).1 = Ok 1 ↔ ¬ ∃ r, corrida.1 = Ok r ∧ errores r = [])
  ∧ (main E args st).2 = corrida.2.
Proof.
  intros Hver Hlista Harchivo. cbn zeta. unfold main.
  rewrite Hver, Hlista. rewrite procesar_un_archivo with (ruta := ruta) by done.
  assert (Hst : (procesar E args lista_nombres st).2
                = (separar_certificados E ruta (arg_salida args)
                     lista_nombres None (arg_prefijo args) (arg_sufijo args)
                     st).2).
  { by rewrite procesar_eq, Harchivo. }
  split; [|split; [|done]];
    destruct (separar_certificados E ruta (arg_salida args) lista_nombres
                None (arg_prefijo args) (arg_sufijo args) st)
      as [[r|e] st1];
    cbn [fst]; try destruct (errores r) as [|f fs] eqn:Herr.
  - split; [by exists r|done].
  - split; [done|]. intros (r' & [= <-] & Hr'). congruence.
  - split; [done|]. by intros (r' & ? & _).
  - split; [done|]. intros Hno. destruct Hno. by exists r.
  - split; [|done]. intros _ (r' & [= <-] & Hr'). congruence.
  - split; [|done]. by intros _ (r' & ? & _).
Qed.

Lemma main_un_archivo_ejemplo :
  let corrida := separar_certificados entorno_ejemplo
                   (lit "certificados.pdf") None None None [] []
                   (estado_inicial ∅) in
  ((main entorno_ejemplo args_archivo (estado_inicial ∅)).1 = Ok 0
   ↔ ∃ r, corrida.1 = Ok r ∧ errores r = [])
  ∧ ((main entorno_ejemplo args_archivo (estado_inicial ∅)).1 = Ok 1
     ↔ ¬ ∃ r, corrida.1 = Ok r ∧ errores r = [])
  ∧ (main entorno_ejemplo args_archivo (estado_inicial ∅)).2 = corrida.2.
Proof.
  apply (main_un_archivo entorno_ejemplo args_archivo None
           (lit "certificados.pdf") (estado_inicial ∅)); reflexivity.
Defined.

(** Run on the input folder, that is without --archivo and without
    --ver-patrones, and with no list or a list file that exists: when the
    folder holds no PDF the script exits with status 1 and changes nothing,
    the output folder is not purged; when the folder is missing the script
    creates it (line 354), exits with status 1 and changes nothing else. *)
Theorem main_sin_entrada (E : entorno) (args : argumentos)
    (lista_nombres : option (list str)) (st : estado) :
  arg_ver_patrones args = false →
  leer_lista E args = inr lista_nombres →
  dado (arg_archivo args) = None →
  (entrada E = Some [] → main E args st = (Ok 1, st))
  ∧ (entrada E = None →
     main E args st
     = (Ok 1, con_carpetas ({[carpeta_entrada E]} ∪ carpetas st) st)).
Proof.
  intros Hver Hlista Harchivo. unfold main.
  rewrite Hver, Hlista. unfold procesar. rewrite Harchivo.
  unfold procesar_carpeta_entrada. split; by intros ->.
Qed.

Lemma main_sin_entrada_ejemplo :
  (entrada entorno_dos_lineas = Some [] →
   main entorno_dos_lineas args_carpeta (estado_inicial {[lit "viejo.pdf"]})
   = (Ok 1, estado_inicial {[lit "viejo.pdf"]}))
  ∧ (entrada entorno_dos_lineas = None →
     main entorno_dos_lineas args_carpeta
       (estado_inicial {[lit "viejo.pdf"]})
     = (Ok 1,
        con_carpetas
          ({[carpeta_entrada entorno_dos_lineas]}
           ∪ carpetas (estado_inicial {[lit "viejo.pdf"]}))
          (estado_inicial {[lit "viejo.pdf"]}))).
Proof.
  apply (main_sin_entrada entorno_dos_lineas args_carpeta None
           (estado_inicial {[lit "viejo.pdf"]})); reflexivity.
Defined.

(** ** Runs with a full disk and on the input folder *)

Lemma separar_certificados_abiertos_ejemplo :
  (HEntrada (lit "certificados.pdf") ∉ abiertos corrida_disco_lleno.2)
  ∧ ∀ h, h ∈ abiertos corrida_disco_lleno.2 →
      h ∈ abiertos (estado_inicial ∅)
      ∨ ∃ j, h = HSalida (lit "certificados.pdf") j
             ∧ j + 1 ∈ paginas_fallidas
                         (valor (sin_resultados 0 []) corrida_disco_lleno).
Proof.
  apply (separar_certificados_abiertos entorno_disco_lleno
           (lit "certificados.pdf") None None None [] [] (estado_inicial ∅)
           corrida_disco_lleno.2).
  by vm_compute.
Defined.

(** The batch run of the example writes three files and deletes the PDF it
    split; with a full disk it notes no success, deletes nothing and leaves
    the three empty files of the failed writes. *)
Lemma procesar_carpeta_entrada_ejemplo :
  borrados corrida_carpeta.2 = [lit "entrada/lote.pdf"]
  ∧ size (salida corrida_carpeta.2) = 3
  ∧ borrados
      (procesar_carpeta_entrada entorno_disco_lleno None [] [] true true
         (estado_inicial ∅)).2 = []
  ∧ exitosos
      <$> valor []
            (procesar_carpeta_entrada entorno_disco_lleno None [] [] true
               true (estado_inicial ∅)) = [[]]
  ∧ size (salida
            (procesar_carpeta_entrada entorno_disco_lleno None [] [] true
               true (estado_inicial ∅)).2) = 3.
Proof. repeat split; by vm_compute. Qed.

(** ** The purge of a folder without PDFs *)


